(** * xapi-ai-format: the export logic of [js/app.js]

    A shallow embedding of the functions of [js/app.js] that carry the
    export logic (anonymisation, duration conversion, response-pattern
    parsing, the pagination engine, the tabular row extraction and the three
    encoders), and the properties of the specification stated over it.

    Conventions of the embedding.
    - A JavaScript string is a [string]: a sequence of code units, of which
      the model keeps those below 256.
    - A JavaScript value is a [value]; [Undefined] is the result of reading
      a property that is not there.  A finite number is the rational that
      it denotes; the arithmetic of [iso8601ToSeconds] is that of binary64,
      rounded to the nearest number with ties to even.
    - A computation that may throw returns a [completion]. *)

From Stdlib Require Import List String Ascii Bool Arith ZArith QArith Lia.
From Stdlib Require Import DecimalString.
From Stdlib Require Qcanon.
Import ListNotations.

Local Open Scope list_scope.
Local Open Scope string_scope.

(** ** Exceptions and completions *)

(** The exceptions the code can raise, with their [message].  The text of
    the message of a built-in exception is chosen by the engine. *)
Inductive exn : Type :=
| TypeError (message : string)
| SyntaxError (message : string)
| RangeError (message : string)
| Error (message : string).

Definition message (e : exn) : string :=
  match e with
  | TypeError m | SyntaxError m | RangeError m | Error m => m
  end.

Definition is_TypeError (e : exn) : bool :=
  match e with TypeError _ => true | _ => false end.
Definition is_SyntaxError (e : exn) : bool :=
  match e with SyntaxError _ => true | _ => false end.
Definition is_RangeError (e : exn) : bool :=
  match e with RangeError _ => true | _ => false end.

Inductive completion (A : Type) : Type :=
| Return (a : A)
| Throw (e : exn).
Arguments Return {A} a.
Arguments Throw {A} e.

Definition bind {A B : Type} (m : completion A) (f : A -> completion B)
  : completion B :=
  match m with
  | Return a => f a
  | Throw e => Throw e
  end.

Notation "x <- m ;; k" := (bind m (fun x => k))
  (at level 61, m at next level, right associativity).

Definition throws {A : Type} (m : completion A) : bool :=
  match m with Throw _ => true | Return _ => false end.

(** ** Strings *)

Definition newline : string := String (ascii_of_nat 10) "".

(** [s.charAt(0)]: the first code unit, or the empty string. *)
Definition charAt0 (s : string) : string :=
  match s with
  | "" => ""
  | String c _ => String c ""
  end.

Fixpoint mem_char (c : ascii) (s : string) : bool :=
  match s with
  | "" => false
  | String d s' => Ascii.eqb c d || mem_char c s'
  end.

(** [s.startsWith(p)], the test behind the search for an occurrence. *)
Fixpoint starts_with (p s : string) : bool :=
  match p, s with
  | "", _ => true
  | String _ _, "" => false
  | String a p', String b s' => Ascii.eqb a b && starts_with p' s'
  end.

(** [c.repeat(n)] for a count [n]; a negative count is a [RangeError]. *)
Fixpoint replicate (n : nat) (s : string) : string :=
  match n with
  | O => ""
  | S n' => s ++ replicate n' s
  end.

Definition repeat_str (s : string) (count : Z) : completion string :=
  if (count <? 0)%Z then Throw (RangeError ("Invalid count value: " ++
      NilZero.string_of_int (Z.to_int count)))
  else Return (replicate (Z.to_nat count) s).

(** [s.split(sep)] for a non-empty separator [sep]: the pieces between the
    occurrences of [sep], found from left to right.  [skip] counts the code
    units of an occurrence that remain to be passed over. *)
Fixpoint split_from (sep : string) (skip : nat) (s : string) : list string :=
  match s with
  | "" => [""]
  | String c s' =>
      match skip with
      | S n => split_from sep n s'
      | O =>
          if starts_with sep s then "" :: split_from sep (String.length sep - 1) s'
          else match split_from sep 0 s' with
               | piece :: pieces => String c piece :: pieces
               | [] => [String c ""]
               end
      end
  end.

Definition split (sep s : string) : list string := split_from sep 0 s.

(** [s.replace(pat, rep)] for a non-empty string pattern: the first
    occurrence only. *)
Fixpoint drop (n : nat) (s : string) : string :=
  match n, s with
  | O, _ => s
  | S n', String _ s' => drop n' s'
  | S _, "" => ""
  end.

Fixpoint replace_first (pat rep s : string) : string :=
  match s with
  | "" => ""
  | String c s' =>
      if starts_with pat s then rep ++ drop (String.length pat) s
      else String c (replace_first pat rep s')
  end.

Fixpoint join (sep : string) (l : list string) : string :=
  match l with
  | [] => ""
  | [x] => x
  | x :: rest => x ++ sep ++ join sep rest
  end.

(** ** Values *)

Unset Elimination Schemes.
Inductive value : Type :=
| Undefined
| Null
| Bool (b : bool)
| Num (q : Q)                   (* a finite number *)
| Infinity
| Str (s : string)
| Arr (elements : list value)
| Obj (properties : list (string * value)).
Set Elimination Schemes.

(** Truthiness ([ToBoolean]). *)
Definition truthy (v : value) : bool :=
  match v with
  | Undefined | Null => false
  | Bool b => b
  | Num q => negb (Qeq_bool q 0)
  | Infinity => true
  | Str s => negb (s =? "")
  | Arr _ | Obj _ => true
  end.

Fixpoint lookup (k : string) (properties : list (string * value)) : value :=
  match properties with
  | [] => Undefined
  | (k', v) :: rest => if k =? k' then v else lookup k rest
  end.

(** [v.k] for the property names the code reads ([actor], [mbox], [verb],
    [display], [object], [definition], [name], [id], [timestamp], [result],
    [duration], [response], [choices], [correctResponsesPattern],
    [responses], [success], [description], [und], [statements], [more]):
    none of them is a property of the prototypes of strings, numbers,
    booleans or arrays, so reading one from a primitive or an array gives
    [Undefined]; reading from [null] or [undefined] throws. *)
Definition get (v : value) (k : string) : completion value :=
  match v with
  | Undefined =>
      Throw (TypeError ("Cannot read properties of undefined (reading '" ++ k ++ "')"))
  | Null =>
      Throw (TypeError ("Cannot read properties of null (reading '" ++ k ++ "')"))
  | Obj properties => Return (lookup k properties)
  | _ => Return Undefined
  end.

Section ToString.
(** [Number::toString], a built-in of the engine. *)
Variable Number_toString : Q -> string.

(** The string conversion a template literal applies to a substitution.
    Inside an array, [null] and [undefined] elements give the empty
    string. *)
Fixpoint ToString (v : value) : string :=
  match v with
  | Undefined => "undefined"
  | Null => "null"
  | Bool true => "true"
  | Bool false => "false"
  | Num q => Number_toString q
  | Infinity => "Infinity"
  | Str s => s
  | Arr elements =>
      join "," (map (fun e => match e with
                              | Undefined | Null => ""
                              | _ => ToString e
                              end) elements)
  | Obj _ => "[object Object]"
  end.
End ToString.

(** ** Anonymisation ([obfuscateEmail], lines 96-100) *)

(** [domain] is [undefined] when the address has no ['@']; the template
    literal then prints it as ["undefined"]. *)
Definition obfuscateEmail (email : string) : completion string :=
  let parts := split "@" email in
  let localPart := nth 0 parts "" in
  let domain := match nth_error parts 1 with
                | Some d => d
                | None => "undefined"
                end in
  stars <- repeat_str "*" (Z.of_nat (String.length localPart) - 1) ;;
  let obfuscatedLocalPart := charAt0 localPart ++ stars in
  Return (obfuscatedLocalPart ++ "@" ++ domain).

(** ** Regular expressions

    The fragment of the regular-expression language that the pattern of
    [iso8601ToSeconds] is written in, with the backtracking semantics of
    the engine: a quantifier is greedy and gives characters back when the
    rest of the pattern fails. *)

Inductive regex : Type :=
| Chr (c : ascii)              (* a literal character *)
| Digits                       (* \d+ *)
| Cat (r1 r2 : regex)          (* r1 r2 *)
| Opt (r : regex)              (* (?:r)? *)
| Grp (n : nat) (r : regex).   (* (r), the capture group number n *)

Definition is_digit (c : ascii) : bool :=
  (48 <=? nat_of_ascii c)%nat && (nat_of_ascii c <=? 57)%nat.

(** The longest prefix of decimal digits, and what follows it. *)
Fixpoint span_digits (s : string) : string * string :=
  match s with
  | "" => ("", "")
  | String c s' =>
      if is_digit c then
        let (ds, rest) := span_digits s' in (String c ds, rest)
      else ("", s)
  end.

Definition captures : Type := list (nat * string).

Fixpoint capture (n : nat) (caps : captures) : option string :=
  match caps with
  | [] => None
  | (m, s) :: rest => if (n =? m)%nat then Some s else capture n rest
  end.

(** The part of [s] in front of its suffix [rest]. *)
Definition consumed (s rest : string) : string :=
  substring 0 (String.length s - String.length rest) s.

(** [\d+] followed by [k]: the longest run first, then shorter ones. *)
Fixpoint digits_then {A : Type} (s : string) (k : string -> option A) : option A :=
  match s with
  | "" => None
  | String c s' =>
      if is_digit c then
        match digits_then s' k with
        | Some res => Some res
        | None => k s'
        end
      else None
  end.

Fixpoint rmatch (r : regex) (s : string) (caps : captures)
    (k : string -> captures -> option captures) : option captures :=
  match r with
  | Chr c =>
      match s with
      | "" => None
      | String d s' => if Ascii.eqb c d then k s' caps else None
      end
  | Digits => digits_then s (fun s' => k s' caps)
  | Cat r1 r2 => rmatch r1 s caps (fun s1 caps1 => rmatch r2 s1 caps1 k)
  | Opt r1 =>
      match rmatch r1 s caps k with
      | Some res => Some res
      | None => k s caps
      end
  | Grp n r1 =>
      rmatch r1 s caps (fun s' caps' => k s' ((n, consumed s s') :: caps'))
  end.

(** [s.match(/^r$/)]: the captures of the match, if the whole of [s]
    matches [r]. *)
Definition match_whole (r : regex) (s : string) : option captures :=
  rmatch r s [] (fun rest caps => if rest =? "" then Some caps else None).

(** ** Duration conversion ([iso8601ToSeconds], lines 115-128) *)

(** [/^PT(?:(\d+)H)?(?:(\d+)M)?(?:(\d+)(\.\d+)?S)?$/] *)
Definition pattern : regex :=
  Cat (Chr "P") (Cat (Chr "T")
  (Cat (Opt (Cat (Grp 1 Digits) (Chr "H")))
  (Cat (Opt (Cat (Grp 2 Digits) (Chr "M")))
       (Opt (Cat (Grp 3 Digits)
            (Cat (Opt (Grp 4 (Cat (Chr ".") Digits))) (Chr "S"))))))).

(** *** The arithmetic of the conversion

    The numbers of the code are binary64 floating-point numbers.  The
    conversion forms no negative number and no [NaN]: a result of its
    arithmetic is a finite number, given by the rational that it denotes in
    lowest terms, or the number [Infinity]. *)
Inductive float64 : Type :=
| Finite (q : Q)
| PlusInfinity.

Definition number_value (x : float64) : value :=
  match x with
  | Finite q => Num q
  | PlusInfinity => Infinity
  end.

(** The integer nearest to [n / d], the even one of two that are equally
    near, for [0 <= n] and [0 < d]. *)
Definition nearest_even (n d : Z) : Z :=
  let q := (n / d)%Z in
  match (2 * (n mod d) ?= d)%Z with
  | Lt => q
  | Gt => (q + 1)%Z
  | Eq => if Z.even q then q else (q + 1)%Z
  end.

(** The binary64 number nearest to [n / d], ties to even.  [e] is the
    exponent of the leading bit of [n / d], that is
    [2 ^ e <= n / d < 2 ^ (e + 1)]; the numbers around [n / d] are the
    multiples of [2 ^ u], for 53 bits of precision and no exponent below
    that of the subnormal numbers; [m] is the multiple nearest to [n / d],
    and a result of [2 ^ 1024] or more is [Infinity]. *)
Definition round64 (n : N) (d : positive) : float64 :=
  let n := Z.of_N n in
  let d := Z.pos d in
  if (n =? 0)%Z then Finite 0 else
  let l := (Z.log2 n - Z.log2 d)%Z in
  let e := if (n * 2 ^ Z.max 0 (- l) <? d * 2 ^ Z.max 0 l)%Z
           then (l - 1)%Z else l in
  let u := Z.max (e - 52) (-1074) in
  let m := nearest_even (n * 2 ^ Z.max 0 (- u)) (d * 2 ^ Z.max 0 u) in
  if (2 ^ 1024 <=? m * 2 ^ Z.max 0 u)%Z then PlusInfinity
  else Finite (Qred (m * 2 ^ Z.max 0 u # Z.to_pos (2 ^ Z.max 0 (- u)))).

(** The binary64 number nearest to a rational that is not negative. *)
Definition round64_Q (q : Q) : float64 := round64 (Z.to_N (Qnum q)) (Qden q).

(** [a + b] *)
Definition plus (a b : float64) : float64 :=
  match a, b with
  | Finite x, Finite y => round64_Q (x + y)
  | _, _ => PlusInfinity
  end.

(** [a * k] for a literal [k] that writes a positive integer below
    [2 ^ 53]. *)
Definition times (a : float64) (k : positive) : float64 :=
  match a with
  | Finite x => round64_Q (x * inject_Z (Z.pos k))
  | PlusInfinity => PlusInfinity
  end.

Definition digit_value (c : ascii) : Z := Z.of_nat (nat_of_ascii c - 48).

Fixpoint decimal_from (acc : Z) (s : string) : Z :=
  match s with
  | "" => acc
  | String c s' => decimal_from (10 * acc + digit_value c) s'
  end.

(** The integer that a string of decimal digits writes, and the fraction
    that the digits after a point write. *)
Definition decimal (s : string) : Z := decimal_from 0 s.

Definition fraction (digits : string) : Q :=
  Qmake (decimal digits) (Pos.pow 10 (Pos.of_nat (String.length digits))).

(** [parseInt] on a string of decimal digits: the number nearest to the
    integer that the digits write (the engines round correctly, however
    many digits there are). *)
Definition parseInt (s : string) : float64 := round64_Q (inject_Z (decimal s)).

(** [parseFloat] on a string made of a dot and decimal digits: the number
    nearest to the fraction that the digits write. *)
Definition parseFloat (s : string) : float64 := round64_Q (fraction (drop 1 s)).

(** [m ? f(m) : z] for a capture [m]: a group that took no part in the
    match is [undefined], and an empty string is falsy as well. *)
Definition if_captured {B : Type} (m : option string) (f : string -> B) (z : B) : B :=
  match m with
  | Some text => if text =? "" then z else f text
  | None => z
  end.

Definition iso8601ToSeconds_string (duration : string) : value :=
  match match_whole pattern duration with
  | Some matches =>
      let hours := if_captured (capture 1 matches) parseInt (Finite 0) in
      let minutes := if_captured (capture 2 matches) parseInt (Finite 0) in
      let seconds := if_captured (capture 3 matches) parseInt (Finite 0) in
      let fractional := if_captured (capture 4 matches) parseFloat (Finite 0) in
      let totalSeconds :=
        plus (plus (plus (times hours 3600) (times minutes 60)) seconds)
             fractional in
      number_value totalSeconds
  | None => Str ""
  end.

(** The argument is whatever [s.result.duration] holds: [match] is a method
    of strings only. *)
Definition iso8601ToSeconds (duration : value) : completion value :=
  match duration with
  | Str d => Return (iso8601ToSeconds_string d)
  | Undefined =>
      Throw (TypeError "Cannot read properties of undefined (reading 'match')")
  | Null =>
      Throw (TypeError "Cannot read properties of null (reading 'match')")
  | _ => Throw (TypeError "duration.match is not a function")
  end.

(** ** Response patterns ([processStringToArray], lines 131-136) *)

(** White space in the sense of [trim]. *)
Definition is_space (c : ascii) : bool :=
  let n := nat_of_ascii c in
  ((9 <=? n)%nat && (n <=? 13)%nat) || (n =? 32)%nat || (n =? 160)%nat.

Fixpoint trim_start (s : string) : string :=
  match s with
  | "" => ""
  | String c s' => if is_space c then trim_start s' else s
  end.

Fixpoint trim_end (s : string) : string :=
  match s with
  | "" => ""
  | String c s' =>
      let t := trim_end s' in
      if is_space c && (t =? "") then "" else String c t
  end.

Definition trim (s : string) : string := trim_end (trim_start s).

Definition strip_first (c : ascii) (s : string) : string :=
  match s with
  | "" => ""
  | String d s' => if Ascii.eqb c d then s' else s
  end.

Fixpoint strip_last (c : ascii) (s : string) : string :=
  match s with
  | "" => ""
  | String d "" => if Ascii.eqb c d then "" else s
  | String d s' => String d (strip_last c s')
  end.

(** [s.replace(/^o|c$/g, '')]: one [o] is removed at the start and one [c]
    at the end. *)
Definition strip_ends (o c : ascii) (s : string) : string :=
  strip_last c (strip_first o s).

Definition dquote : ascii := ascii_of_nat 34.

Definition processStringToArray_string (inputString : string) : list string :=
  let trimmedString := strip_ends "[" "]" (trim inputString) in
  let trimmedString := strip_ends dquote dquote trimmedString in
  let array := split "[,]" trimmedString in
  array.

Definition processStringToArray (inputString : value) : completion (list string) :=
  match inputString with
  | Str s => Return (processStringToArray_string s)
  | Undefined =>
      Throw (TypeError "Cannot read properties of undefined (reading 'trim')")
  | Null =>
      Throw (TypeError "Cannot read properties of null (reading 'trim')")
  | _ => Throw (TypeError "inputString.trim is not a function")
  end.

(** ** The program

    [JSON.parse], [JSON.stringify] and [Number::toString] are built-ins of
    the engine; [updateProgressBar] and the download of the payload only
    touch the page.  The program is embedded over the three built-ins. *)

Record xhr : Type := { status : Z; response : string }.

(** One round of the environment while a page request is in flight: the
    answer of the store, and whether the stop button (line 340) is clicked
    before the answer arrives. *)
Record round : Type := { res : xhr; stop_clicked : bool }.

(** The state [fetchStatements] closes over, with the flag of line 35. *)
Record session : Type := {
  allStatements : list value;
  more : value;
  fetchedCount : nat;
  isFetching : bool
}.

(** What becomes of the promise of [fetch]: resolved, rejected, left
    unsettled by an exception that escapes the callback of the request, or
    still waiting for an answer of the store. *)
Inductive outcome : Type :=
| Resolved (statements : list value)
| Rejected (reason : string)
| Uncaught (e : exn)
| Pending.

Inductive step : Type :=
| Continue (st : session)
| Settle (o : outcome).

(** The row of the CSV encoding before it is printed: the values the
    template literal of line 243 substitutes. *)
Record TabularRow : Type := {
  id : value;
  actor : string;
  verb : value;
  objectId : value;
  objectName : value;
  duration : value;
  questionAnswers : string;
  questionPassed : string;
  questionCorrectAnswers : string;
  usersAnswer : string;
  timestamp : value
}.

(** The variables of lines 215-218, and the counter [i]. *)
Record question : Type := {
  q_answers : string;
  q_passed : string;
  q_correct : string;
  q_users : string;
  q_i : nat
}.

Record payload : Type := { data : string; mimeType : string; extension : string }.

Definition nat_text (n : nat) : string := NilZero.string_of_uint (Nat.to_uint n).

(** [Object.values(v)[0]]; the properties of an [Obj] are listed in the
    order the engine enumerates them. *)
Definition first_value (v : value) : completion value :=
  match v with
  | Undefined | Null =>
      Throw (TypeError "Cannot convert undefined or null to object")
  | Obj ((_, x) :: _) => Return x
  | Arr (x :: _) => Return x
  | Str (String c _) => Return (Str (String c ""))
  | _ => Return Undefined
  end.

(** [m.replace('mailto:', '')]: [replace] is a method of strings only. *)
Definition strip_mailto (m : value) : completion string :=
  match m with
  | Str text => Return (replace_first "mailto:" "" text)
  | Undefined =>
      Throw (TypeError "Cannot read properties of undefined (reading 'replace')")
  | Null =>
      Throw (TypeError "Cannot read properties of null (reading 'replace')")
  | _ => Throw (TypeError "s.actor.mbox.replace is not a function")
  end.

Fixpoint mapM {A B : Type} (f : A -> completion B) (l : list A)
  : completion (list B) :=
  match l with
  | [] => Return []
  | x :: rest => y <- f x ;; ys <- mapM f rest ;; Return (y :: ys)
  end.

Fixpoint foldM {A S : Type} (f : S -> A -> completion S) (l : list A) (st : S)
  : completion S :=
  match l with
  | [] => Return st
  | x :: rest => st' <- f st x ;; foldM f rest st'
  end.

Fixpoint filterM {A : Type} (f : A -> completion bool) (l : list A)
  : completion (list A) :=
  match l with
  | [] => Return []
  | x :: rest =>
      keep <- f x ;; ys <- filterM f rest ;;
      Return (if keep then x :: ys else ys)
  end.

(** Lines 140-142, with the value [fetching] of the flag. *)
Definition new_session (fetching : bool) : session :=
  {| allStatements := []; more := Null; fetchedCount := 0;
     isFetching := fetching |}.

Section Program.
(** [JSON.parse]: [None] when it throws its [SyntaxError]. *)
Variable JSON_parse : string -> option value.
(** [JSON.stringify(v)] ([None]) and [JSON.stringify(v, null, n)]
    ([Some n]). *)
Variable JSON_stringify : option nat -> value -> string.
Variable Number_toString : Q -> string.

Local Abbreviation text_of := (ToString Number_toString).

(** [JSON.parse(v)]: the argument is converted to a string first. *)
Definition parse (v : value) : completion value :=
  match JSON_parse (text_of v) with
  | Some r => Return r
  | None => Throw (SyntaxError "Unexpected token in JSON")
  end.

(** *** The record filter (line 161) *)

(** [s.actor && s.actor.mbox && s.verb && s.verb.display], as the test
    of [filter]. *)
Definition accept (s : value) : completion bool :=
  a <- get s "actor" ;;
  if negb (truthy a) then Return false else
  m <- get a "mbox" ;;
  if negb (truthy m) then Return false else
  v <- get s "verb" ;;
  if negb (truthy v) then Return false else
  d <- get v "display" ;;
  Return (truthy d).

(** [response.statements.filter(...)]: [filter] is a method of arrays
    only. *)
Definition filter_statements (statements : value) : completion (list value) :=
  match statements with
  | Arr elements => filterM accept elements
  | _ => Throw (TypeError "response.statements.filter is not a function")
  end.

(** *** The pagination engine ([fetchStatements], lines 139-181) *)

Section Fetch.
(** [query.limit]: the text of the form field, or the number 1000 that
    caps it (line 300); [fetchedCount >= query['limit']] compares it as a
    number, and [limit] is that number. *)
Variable limit : Z.

(** The callback of [getStatements] (lines 149-176). *)
Definition on_response (st : session) (r : round) : step :=
  let fetching := isFetching st && negb (stop_clicked r) in
  if negb (status (res r) =? 200)%Z then
    Settle (Rejected "Error fetching statements.")
  else
    match JSON_parse (response (res r)) with
    | None => Settle (Uncaught (SyntaxError "Unexpected token in JSON"))
    | Some body =>
        match
          statements <- get body "statements" ;;
          if negb (truthy statements) then Return None else
          filteredStatements <- filter_statements statements ;;
          token <- get body "more" ;;
          Return (Some (filteredStatements, token))
        with
        | Throw e => Settle (Uncaught e)
        | Return None => Settle (Rejected "No statements found.")
        | Return (Some (filteredStatements, token)) =>
            let all := (allStatements st ++ filteredStatements)%list in
            let count := (fetchedCount st + List.length filteredStatements)%nat in
            if truthy token && negb (match token with Str "" => true | _ => false end)
               && fetching
            then Continue {| allStatements := all; more := token;
                             fetchedCount := count; isFetching := fetching |}
            else Settle (Resolved all)
        end
    end.

(** The test of line 146. *)
Definition finished (st : session) : bool :=
  negb (isFetching st) || (limit <=? Z.of_nat (fetchedCount st))%Z.

(** [fetch] (lines 145-178), run against the rounds of the
    environment. *)
Fixpoint fetch (env : list round) (st : session) : outcome :=
  if finished st then Resolved (allStatements st)
  else
    match env with
    | [] => Pending
    | r :: env' =>
        match on_response st r with
        | Continue st' => fetch env' st'
        | Settle o => o
        end
    end.

(** [fetching] is the value of [isFetching] when [fetchStatements] is
    called. *)
Definition fetchStatements (fetching : bool) (env : list round) : outcome :=
  fetch env (new_session fetching).
End Fetch.

(** *** The row of the tabular encoding (lines 191-244) *)

(** The body of the [forEach] over the choices (lines 224-240), for the
    result substructure [result]. *)
Definition on_choice (result : value) (q : question) (choice : value)
  : completion question :=
  choice_id <- get choice "id" ;;
  description <- get choice "description" ;;
  und <- get description "und" ;;
  let answers :=
    q_answers q ++ "id= " ++ nat_text (q_i q) ++ ": " ++ text_of choice_id
      ++ " Answer=" ++ text_of und ++ "|" in
  let entry (acc cresp : string) :=
    acc ++ " id=" ++ cresp ++ " Answer=" ++ text_of und ++ "|" in
  correctPattern <- get result "correctResponsesPattern" ;;
  arrayResponses <- processStringToArray correctPattern ;;
  let correct := fold_left entry arrayResponses "" in
  responses <- get result "responses" ;;
  arrayUserResponses <- processStringToArray responses ;;
  let users := fold_left entry arrayUserResponses "" in
  Return {| q_answers := answers; q_passed := q_passed q;
            q_correct := correct; q_users := users; q_i := S (q_i q) |}.

(** [v.forEach(f)]: [forEach] is a method of arrays only. *)
Definition forEach {S : Type} (v : value) (f : S -> value -> completion S) (st : S)
  : completion S :=
  match v with
  | Arr elements => foldM f elements st
  | Undefined =>
      Throw (TypeError "Cannot read properties of undefined (reading 'forEach')")
  | Null =>
      Throw (TypeError "Cannot read properties of null (reading 'forEach')")
  | _ => Throw (TypeError "JSON.parse(...).forEach is not a function")
  end.

(** Lines 215-241. *)
Definition question_fields (s : value) : completion question :=
  let q0 := {| q_answers := ""; q_passed := ""; q_correct := "";
               q_users := ""; q_i := 1 |} in
  result <- get s "result" ;;
  if negb (truthy result) then Return q0 else
  resp <- get result "response" ;;
  if negb (truthy resp) then Return q0 else
  res <- parse resp ;;
  success <- get res "success" ;;
  let q1 := {| q_answers := ""; q_passed := if truthy success then "True" else "False";
               q_correct := ""; q_users := ""; q_i := 1 |} in
  choices <- get result "choices" ;;
  parsed <- parse choices ;;
  forEach parsed (on_choice result) q1.

(** Lines 206-213: an exception inside the [try] ends up, as its
    message, in the field. *)
Definition duration_field (s : value) : value :=
  match
    result <- get s "result" ;;
    if negb (truthy result) then Return (Str "0") else
    d <- get result "duration" ;;
    if negb (truthy d) then Return (Str "0") else
    iso8601ToSeconds d
  with
  | Return v => v
  | Throw ex => Str (message ex)
  end.

(** Lines 192-241: the fields of one row. *)
Definition extract (obfuscateCheckbox : bool) (s : value) : completion TabularRow :=
  id_ <- get s "id" ;;
  a <- get s "actor" ;;
  mbox <- get a "mbox" ;;
  actor_ <- (if truthy mbox then
               address <- strip_mailto mbox ;;
               if obfuscateCheckbox then obfuscateEmail address
               else Return address
             else Return "") ;;
  v <- get s "verb" ;;
  display <- get v "display" ;;
  verb_ <- (if truthy display then first_value display else Return (Str "")) ;;
  object <- get s "object" ;;
  definition <- get object "definition" ;;
  name <- (if truthy definition then get definition "name"
           else Return definition) ;;
  objectName_ <- (if truthy name then first_value name else Return (Str "")) ;;
  objectId_ <- get object "id" ;;
  timestamp_ <- get s "timestamp" ;;
  let duration_ := duration_field s in
  q <- question_fields s ;;
  Return {| id := id_; actor := actor_; verb := verb_; objectId := objectId_;
            objectName := objectName_; duration := duration_;
            questionAnswers := q_answers q; questionPassed := q_passed q;
            questionCorrectAnswers := q_correct q; usersAnswer := q_users q;
            timestamp := timestamp_ |}.

(** The template literal of line 243. *)
Definition row_text (r : TabularRow) : string :=
  text_of (id r) ++ "," ++ actor r ++ "," ++ text_of (verb r) ++ ","
    ++ text_of (objectId r) ++ "," ++ text_of (objectName r) ++ ","
    ++ text_of (duration r) ++ "," ++ questionAnswers r ++ ","
    ++ questionPassed r ++ "," ++ questionCorrectAnswers r ++ ","
    ++ usersAnswer r ++ "," ++ text_of (timestamp r).

Definition csv_row (obfuscateCheckbox : bool) (s : value) : completion string :=
  r <- extract obfuscateCheckbox s ;; Return (row_text r).

(** *** The encoders ([processStatements], lines 184-261) *)

(** The separator the rows and the lines are joined with: the string
    literals ["\\n"] and ['\\n'] of lines 190, 244 and 250 denote a
    backslash followed by the letter n. *)
Definition separator : string := "\n".

Definition header : string :=
  "ID,Actor,Verb,ObjectID,Object,Duration,Question Answers,Question Passed,Question Correct Answers,Users Answer,Timestamp"
  ++ separator.

(** The payload, its MIME type and the extension of the file name. *)
Definition processStatements (statements : list value) (format : string)
    (obfuscateCheckbox : bool) : completion payload :=
  if format =? "csv" then
    rows <- mapM (csv_row obfuscateCheckbox) statements ;;
    Return {| data := header ++ join separator rows;
              mimeType := "text/csv"; extension := "csv" |}
  else if format =? "jsonl" then
    Return {| data := join separator (map (JSON_stringify None) statements);
              mimeType := "application/json"; extension := "jsonl" |}
  else if format =? "raw" then
    Return {| data := JSON_stringify (Some 2%nat) (Arr statements);
              mimeType := "application/json"; extension := "json" |}
  else Throw (Error "Invalid format selected.").
End Program.

(** ** The rest of the page script *)

(** *** The name of the file ([getCurrentTimestamp], lines 53-62) *)

(** What the [Date] object [now] answers: [getFullYear], [getMonth] (from
    0), [getDate], [getHours], [getMinutes] and [getSeconds]. *)
Record clock : Type := {
  fullYear : nat;
  monthIndex : nat;
  dayOfMonth : nat;
  hourOfDay : nat;
  minuteOfHour : nat;
  secondOfMinute : nat
}.

(** [s.padStart(2, '0')] *)
Definition padStart2 (s : string) : string :=
  match String.length s with
  | O => "00"
  | S O => "0" ++ s
  | _ => s
  end.

Definition getCurrentTimestamp (now : clock) : string :=
  let year := nat_text (fullYear now) in
  let month := padStart2 (nat_text (monthIndex now + 1)) in
  let day := padStart2 (nat_text (dayOfMonth now)) in
  let hours := padStart2 (nat_text (hourOfDay now)) in
  let minutes := padStart2 (nat_text (minuteOfHour now)) in
  let seconds := padStart2 (nat_text (secondOfMinute now)) in
  year ++ month ++ day ++ "_" ++ hours ++ minutes ++ seconds.

(** The [download] attribute of line 269, for the host name that
    [getDomainFromUrl] reads off the endpoint. *)
Definition download_name (hostname : string) (now : clock) (extension : string)
  : string :=
  hostname ++ "_statements_" ++ getCurrentTimestamp now ++ "." ++ extension.

(** *** Promises *)

Inductive promise (A : Type) : Type :=
| Fulfilled (a : A)
| RejectedWith (reason : string)
| Unsettled.
Arguments Fulfilled {A} a.
Arguments RejectedWith {A} reason.
Arguments Unsettled {A}.

(** *** The connection test ([testConnection], lines 78-93) *)

(** What becomes of the request for one statement: no answer yet, an answer
    with a status, or an exception of the wrapper while the request is
    made. *)
Inductive probe : Type :=
| NoAnswer
| Answer (status : Z)
| WrapperThrows (e : exn).

Definition testConnection (p : probe) : promise unit :=
  match p with
  | NoAnswer => Unsettled
  | Answer status =>
      if negb (status =? 200)%Z
      then RejectedWith "Error connecting to the Learning Record Store."
      else Fulfilled tt
  | WrapperThrows error =>
      RejectedWith ("Error in testConnection: " ++ message error)
  end.

(** *** The submission of the form (lines 280-336) *)

(** [`${error}`] for an exception: the name of its constructor, a colon
    and its message. *)
Definition error_text (e : exn) : string :=
  match e with
  | TypeError m => "TypeError: " ++ m
  | SyntaxError m => "SyntaxError: " ++ m
  | RangeError m => "RangeError: " ++ m
  | Error m => "Error: " ++ m
  end.

(** What the user gets at the end of a submission: the file that was
    handed to the browser, if any, and the alert of [showMessage] with its
    type. *)
Record report : Type := {
  downloaded : option payload;
  alert_message : string;
  alert_type : string
}.

Definition danger (error : string) : report :=
  {| downloaded := None; alert_message := "Error: " ++ error;
     alert_type := "danger" |}.

Section Submission.
Variable JSON_parse : string -> option value.
Variable JSON_stringify : option nat -> value -> string.
Variable Number_toString : Q -> string.

(** Lines 298-301: the cap on the number of statements. *)
Definition capped (limit : Z) : Z :=
  if (limit >? 1000)%Z then 1000%Z else limit.

(** The handler.  [dates] is what the two calls of
    [formatDateToISO8601] (lines 292-293, outside the [try]) come to;
    [fetching] is the flag when [fetchStatements] is called, the stop button
    being live while the connection is tested.  [None]: the handler does not
    reach its end (an exception outside the [try], or a promise that is
    never settled), and nothing is shown. *)
Definition submit (dates : completion (string * string)) (limit : Z)
    (format : string) (obfuscateCheckbox : bool) (p : probe)
    (fetching : bool) (env : list round) : option report :=
  match dates with
  | Throw _ => None
  | Return _ =>
      let limit := capped limit in
      match testConnection p with
      | Unsettled => None
      | RejectedWith error => Some (danger error)
      | Fulfilled _ =>
          match fetchStatements JSON_parse limit fetching env with
          | Pending | Uncaught _ => None
          | Rejected error => Some (danger error)
          | Resolved statements =>
              match processStatements JSON_parse JSON_stringify Number_toString
                      statements format obfuscateCheckbox with
              | Throw error => Some (danger (error_text error))
              | Return file =>
                  Some {| downloaded := Some file;
                          alert_message := "Data successfully fetched and downloaded.";
                          alert_type := "success" |}
              end
          end
      end
  end.

(** *** The name in a JSON text ([extractName], lines 103-112) *)

Definition extractName (jsonString : value) : completion value :=
  data <- parse JSON_parse Number_toString jsonString ;;
  name <- get data "name" ;;
  if truthy name then Return name else
  account <- get data "account" ;;
  if negb (truthy account) then Return Null else
  account_name <- get account "name" ;;
  if truthy account_name then Return account_name else Return Null.
End Submission.

(** ** A reference engine

    Definitions of the three built-ins on the values of the model, to run
    the program on concrete records: decimal notation for numbers, read
    and printed without rounding, and the JSON grammar of ECMA-404
    restricted to the code units of the model. *)

Module Reference.

Definition digit_char (d : Z) : ascii := ascii_of_nat (48 + Z.to_nat d).

(** The digits of [r / d] after the point, for [0 <= r < d]. *)
Fixpoint fraction_digits (fuel : nat) (r d : Z) : string :=
  match fuel with
  | O => ""
  | S fuel' =>
      if (r =? 0)%Z then ""
      else String (digit_char (10 * r / d))
                  (fraction_digits fuel' ((10 * r) mod d) d)
  end.

(** Decimal notation; exact when the number has a finite expansion. *)
Definition Number_toString (q : Q) : string :=
  let d := Zpos (Qden q) in
  let a := Z.abs (Qnum q) in
  (if (Qnum q <? 0)%Z then "-" else "")
  ++ NilZero.string_of_uint (N.to_uint (Z.to_N (a / d)))
  ++ (if (a mod d =? 0)%Z then ""
      else "." ++ fraction_digits (S (Pos.size_nat (Qden q))) (a mod d) d).

(** *** Printing *)

Definition hex_char (n : nat) : ascii :=
  if (n <? 10)%nat then ascii_of_nat (48 + n) else ascii_of_nat (87 + n).

Definition escape_char (c : ascii) : string :=
  let n := nat_of_ascii c in
  if (n =? 34)%nat then String "\" (String dquote "")
  else if (n =? 92)%nat then "\\"
  else if (n =? 8)%nat then "\b"
  else if (n =? 9)%nat then "\t"
  else if (n =? 10)%nat then "\n"
  else if (n =? 12)%nat then "\f"
  else if (n =? 13)%nat then "\r"
  else if (n <? 32)%nat then
    "\u00" ++ String (hex_char (n / 16)) (String (hex_char (n mod 16)) "")
  else String c "".

Fixpoint escape (s : string) : string :=
  match s with
  | "" => ""
  | String c s' => escape_char c ++ escape s'
  end.

Definition quote (s : string) : string :=
  String dquote (escape s ++ String dquote "").

(** The line break and the indentation in front of an item at depth
    [level]; nothing when no indentation is asked for. *)
Definition break (indent : option nat) (level : nat) : string :=
  match indent with
  | None => ""
  | Some n => newline ++ replicate (n * level) " "
  end.

Definition enclose (indent : option nat) (level : nat) (o c : string)
    (items : list string) : string :=
  match items with
  | [] => o ++ c
  | _ => o ++ break indent (S level)
           ++ join ("," ++ break indent (S level)) items
           ++ break indent level ++ c
  end.

Fixpoint print (indent : option nat) (level : nat) (v : value) : string :=
  match v with
  | Undefined | Null => "null"
  | Bool true => "true"
  | Bool false => "false"
  | Num q => Number_toString q
  | Infinity => "null"
  | Str s => quote s
  | Arr elements =>
      enclose indent level "[" "]" (map (print indent (S level)) elements)
  | Obj properties =>
      enclose indent level "{" "}"
        (map (fun kv => quote (fst kv)
                        ++ (match indent with None => ":" | Some _ => ": " end)
                        ++ print indent (S level) (snd kv)) properties)
  end.

Definition JSON_stringify (indent : option nat) (v : value) : string :=
  print indent 0 v.

(** *** Parsing *)

Definition is_json_space (c : ascii) : bool :=
  let n := nat_of_ascii c in
  (n =? 32)%nat || (n =? 9)%nat || (n =? 10)%nat || (n =? 13)%nat.

Fixpoint skip_space (s : string) : string :=
  match s with
  | "" => ""
  | String c s' => if is_json_space c then skip_space s' else s
  end.

Definition pow10 (e : Z) : Q :=
  if (e <? 0)%Z then Qmake 1 (Pos.pow 10 (Z.to_pos (- e)))
  else inject_Z (10 ^ e).

(** [-? int frac? exp?] *)
Definition read_number (s : string) : option (value * string) :=
  let (negative, s1) :=
    match s with
    | String "-" s' => (true, s')
    | _ => (false, s)
    end in
  let (int, s2) := span_digits s1 in
  if (int =? "") || (starts_with "0" int && negb (int =? "0")) then None else
  let after_fraction :=
    match s2 with
    | String "." s' =>
        let (frac, s3) := span_digits s' in
        if frac =? "" then None
        else Some ((inject_Z (decimal int) + fraction frac)%Q, s3)
    | _ => Some (inject_Z (decimal int), s2)
    end in
  match after_fraction with
  | None => None
  | Some (m, s3) =>
      let signed := if negative then Qopp m else m in
      match s3 with
      | String c s' =>
          if Ascii.eqb c "e" || Ascii.eqb c "E" then
            let (esign, s4) :=
              match s' with
              | String "-" t => ((-1)%Z, t)
              | String "+" t => (1%Z, t)
              | _ => (1%Z, s')
              end in
            let (ds, s5) := span_digits s4 in
            if ds =? "" then None
            else Some (Num (Qred (signed * pow10 (esign * decimal ds))), s5)
          else Some (Num (Qred signed), s3)
      | "" => Some (Num (Qred signed), s3)
      end
  end.

Definition hex_value (c : ascii) : option nat :=
  let n := nat_of_ascii c in
  if is_digit c then Some (n - 48)%nat
  else if (97 <=? n)%nat && (n <=? 102)%nat then Some (n - 87)%nat
  else if (65 <=? n)%nat && (n <=? 70)%nat then Some (n - 55)%nat
  else None.

(** The characters of a string up to its closing quote. *)
Fixpoint read_string (fuel : nat) (s : string) : option (string * string) :=
  match fuel with
  | O => None
  | S fuel' =>
      match s with
      | "" => None
      | String c s' =>
          if Ascii.eqb c dquote then Some ("", s')
          else if Ascii.eqb c "\" then
            match s' with
            | String e s'' =>
                let simple (x : ascii) :=
                  match read_string fuel' s'' with
                  | Some (text, rest) => Some (String x text, rest)
                  | None => None
                  end in
                if Ascii.eqb e dquote then simple dquote
                else if Ascii.eqb e "\" then simple "\"%char
                else if Ascii.eqb e "/" then simple "/"%char
                else if Ascii.eqb e "b" then simple (ascii_of_nat 8)
                else if Ascii.eqb e "f" then simple (ascii_of_nat 12)
                else if Ascii.eqb e "n" then simple (ascii_of_nat 10)
                else if Ascii.eqb e "r" then simple (ascii_of_nat 13)
                else if Ascii.eqb e "t" then simple (ascii_of_nat 9)
                else if Ascii.eqb e "u" then
                  match s'' with
                  | String h1 (String h2 (String h3 (String h4 t))) =>
                      match hex_value h1, hex_value h2, hex_value h3, hex_value h4 with
                      | Some 0%nat, Some 0%nat, Some a, Some b =>
                          match read_string fuel' t with
                          | Some (text, rest) =>
                              Some (String (ascii_of_nat (16 * a + b)) text, rest)
                          | None => None
                          end
                      | _, _, _, _ => None
                      end
                  | _ => None
                  end
                else None
            | "" => None
            end
          else if (nat_of_ascii c <? 32)%nat then None
          else
            match read_string fuel' s' with
            | Some (text, rest) => Some (String c text, rest)
            | None => None
            end
      end
  end.

(** A property name that is an array index: such properties are
    enumerated first, in ascending order. *)
Definition is_index (k : string) : bool :=
  let (ds, rest) := span_digits k in
  (rest =? "") && negb (ds =? "") && ((ds =? "0") || negb (starts_with "0" ds))
  && (decimal ds <? 4294967295)%Z.

Fixpoint has_property (k : string) (properties : list (string * value)) : bool :=
  match properties with
  | [] => false
  | (k', _) :: rest => (k =? k') || has_property k rest
  end.

Fixpoint replace_property (k : string) (v : value)
    (properties : list (string * value)) : list (string * value) :=
  match properties with
  | [] => []
  | (k', v') :: rest =>
      if k =? k' then (k, v) :: rest else (k', v') :: replace_property k v rest
  end.

Fixpoint insert_index (k : string) (v : value)
    (properties : list (string * value)) : list (string * value) :=
  match properties with
  | [] => [(k, v)]
  | (k', v') :: rest =>
      if is_index k' && (decimal k' <? decimal k)%Z
      then (k', v') :: insert_index k v rest
      else (k, v) :: properties
  end.

(** [o[k] = v], in the order of enumeration. *)
Definition define_property (k : string) (v : value)
    (properties : list (string * value)) : list (string * value) :=
  if has_property k properties then replace_property k v properties
  else if is_index k then insert_index k v properties
  else (properties ++ [(k, v)])%list.

Fixpoint read_value (fuel : nat) (s : string) : option (value * string) :=
  match fuel with
  | O => None
  | S fuel' =>
      match skip_space s with
      | "" => None
      | String c s' as t =>
          if Ascii.eqb c "n" then
            if starts_with "null" t then Some (Null, drop 4 t) else None
          else if Ascii.eqb c "t" then
            if starts_with "true" t then Some (Bool true, drop 4 t) else None
          else if Ascii.eqb c "f" then
            if starts_with "false" t then Some (Bool false, drop 5 t) else None
          else if Ascii.eqb c dquote then
            match read_string (S (String.length s')) s' with
            | Some (text, rest) => Some (Str text, rest)
            | None => None
            end
          else if Ascii.eqb c "[" then
            match skip_space s' with
            | String "]" rest => Some (Arr [], rest)
            | _ =>
                match read_elements fuel' s' with
                | Some (elements, rest) => Some (Arr elements, rest)
                | None => None
                end
            end
          else if Ascii.eqb c "{" then
            match skip_space s' with
            | String "}" rest => Some (Obj [], rest)
            | _ =>
                match read_members fuel' [] s' with
                | Some (properties, rest) => Some (Obj properties, rest)
                | None => None
                end
            end
          else read_number t
      end
  end

(** [value (, value)* ]] *)
with read_elements (fuel : nat) (s : string) : option (list value * string) :=
  match fuel with
  | O => None
  | S fuel' =>
      match read_value fuel' s with
      | None => None
      | Some (v, rest) =>
          match skip_space rest with
          | String "]" rest' => Some ([v], rest')
          | String "," rest' =>
              match read_elements fuel' rest' with
              | Some (vs, rest'') => Some (v :: vs, rest'')
              | None => None
              end
          | _ => None
          end
      end
  end

(** [string : value (, string : value)* }] *)
with read_members (fuel : nat) (properties : list (string * value)) (s : string)
  : option (list (string * value) * string) :=
  match fuel with
  | O => None
  | S fuel' =>
      match skip_space s with
      | String c s' =>
          if Ascii.eqb c dquote then
            match read_string (S (String.length s')) s' with
            | None => None
            | Some (k, rest) =>
                match skip_space rest with
                | String ":" rest' =>
                    match read_value fuel' rest' with
                    | None => None
                    | Some (v, rest'') =>
                        let properties' := define_property k v properties in
                        match skip_space rest'' with
                        | String "}" t => Some (properties', t)
                        | String "," t => read_members fuel' properties' t
                        | _ => None
                        end
                    end
                | _ => None
                end
            end
          else None
      | "" => None
      end
  end.

Definition JSON_parse (text : string) : option value :=
  match read_value (2 * String.length text + 2) text with
  | Some (v, rest) => if skip_space rest =? "" then Some v else None
  | None => None
  end.

End Reference.

(** * The vocabulary of the specification *)

(** ** Values *)

Definition non_null (v : value) : bool :=
  match v with
  | Undefined | Null => false
  | _ => true
  end.

(** The property [k] of [v], [Undefined] where there is none. *)
Definition field (v : value) (k : string) : value :=
  match v with
  | Obj properties => lookup k properties
  | _ => Undefined
  end.

(** ** The record filter *)

(** The filter in the words of the specification: a non-null actor with a
    non-null mailbox identifier, and a non-null verb with a non-null
    display-label map. *)
Definition accept_non_null (r : value) : bool :=
  non_null (field r "actor") && non_null (field (field r "actor") "mbox")
  && non_null (field r "verb") && non_null (field (field r "verb") "display").

(** The test the code makes: the four values are truthy. *)
Definition accept_truthy (r : value) : bool :=
  truthy (field r "actor") && truthy (field (field r "actor") "mbox")
  && truthy (field r "verb") && truthy (field (field r "verb") "display").

(** ** Pagination *)

Section PageVocabulary.
Variable JSON_parse : string -> option value.
Variable limit : Z.

(** The records of the answer of a round that pass the filter. *)
Definition accepted_records (r : round) : option (list value) :=
  match JSON_parse (response (res r)) with
  | None => None
  | Some body =>
      match statements <- get body "statements" ;; filter_statements statements with
      | Return page => Some page
      | Throw _ => None
      end
  end.

(** The sessions in which [fetch] requests a page. *)
Fixpoint requests (env : list round) (st : session) : list session :=
  if finished limit st then []
  else
    st :: match env with
          | [] => []
          | r :: env' =>
              match on_response JSON_parse st r with
              | Continue st' => requests env' st'
              | Settle _ => []
              end
          end.

End PageVocabulary.

Definition counted (st : session) : Prop :=
  fetchedCount st = List.length (allStatements st).

(** ** The question fields *)

Fixpoint cat (l : list string) : string :=
  match l with
  | [] => ""
  | x :: rest => x ++ cat rest
  end.

(** The entry of a response id [cresp] against a description [und]. *)
Definition entry (und cresp : string) : string :=
  " id=" ++ cresp ++ " Answer=" ++ und ++ "|".

(** One entry for every id, against one description. *)
Definition entries (ids : list string) (und : string) : string :=
  cat (map (entry und) ids).

(** The join in the words of the specification: one entry for every pair
    of a response id and a choice, over all the choices. *)
Definition cross_join (ids : list string) (descriptions : list string) : string :=
  cat (map (entries ids) descriptions).

(** The entry of [questionAnswers] for the choice number [i]. *)
Definition answer (Number_toString : Q -> string) (i : nat) (c : value) : string :=
  "id= " ++ nat_text i ++ ": " ++ ToString Number_toString (field c "id")
    ++ " Answer=" ++ ToString Number_toString (field (field c "description") "und")
    ++ "|".

Fixpoint answers (Number_toString : Q -> string) (i : nat) (choices : list value)
  : string :=
  match choices with
  | [] => ""
  | c :: rest => answer Number_toString i c ++ answers Number_toString (S i) rest
  end.

(** A choice the loop can read: not [null], with a description that is not
    [null]. *)
Definition proper_choice (c : value) : bool :=
  non_null c && non_null (field c "description").

(** A response pattern written as the code expects it: the ids between brackets,
    separated by [[,]]. *)
Definition bracketed (ids : list string) : string :=
  "[" ++ join "[,]" ids ++ "]".

(** An id without opening bracket and without quote. *)
Definition plain (i : string) : bool :=
  negb (mem_char "[" i) && negb (mem_char dquote i).

Section QuestionVocabulary.
Variable JSON_parse : string -> option value.
Variable Number_toString : Q -> string.

Local Abbreviation text_of := (ToString Number_toString).

Definition description_text (c : value) : string :=
  text_of (field (field c "description") "und").

(** What the question block needs to run to its end on the record [s]:
    a result whose [response] decodes to [res], whose [choices] decode to
    the array [choices] of proper choices, and whose two patterns are the
    strings [correctPattern] and [responses]. *)
Record question_data (s result res : value) (choices : list value)
    (correctPattern responses : string) : Prop := {
  qd_result : get s "result" = Return result;
  qd_response :
    exists resp, get result "response" = Return resp /\ truthy resp = true
                 /\ JSON_parse (text_of resp) = Some res;
  qd_res : non_null res = true;
  qd_choices :
    exists text, get result "choices" = Return text
                 /\ JSON_parse (text_of text) = Some (Arr choices);
  qd_proper : forallb proper_choice choices = true;
  qd_correct : get result "correctResponsesPattern" = Return (Str correctPattern);
  qd_responses : get result "responses" = Return (Str responses)
}.

End QuestionVocabulary.

(** ** The encoders *)

Definition line_feed : ascii := ascii_of_nat 10.

(** ** Durations *)

Fixpoint digits_only (s : string) : bool :=
  match s with
  | "" => true
  | String c s' => is_digit c && digits_only s'
  end.

(** A string that [\d+] matches. *)
Definition number (ds : string) : bool := negb (ds =? "") && digits_only ds.

Definition optional {A : Type} (p : A -> bool) (o : option A) : bool :=
  match o with
  | Some a => p a
  | None => true
  end.

(** The parts of a duration [PT#H#M#S]: the digits of the hours, of the
    minutes, and of the seconds with the digits of their fraction. *)
Definition well_formed (h m : option string) (sec : option (string * option string))
  : bool :=
  optional number h && optional number m
  && optional (fun sf => number (fst sf) && optional number (snd sf)) sec.

Definition component (part : option string) (unit : string) : string :=
  match part with
  | Some ds => ds ++ unit
  | None => ""
  end.

Definition seconds_text (sec : option (string * option string)) : string :=
  match sec with
  | Some (ds, Some fs) => ds ++ "." ++ fs ++ "S"
  | Some (ds, None) => ds ++ "S"
  | None => ""
  end.

Definition duration_text (h m : option string) (sec : option (string * option string))
  : string :=
  "PT" ++ component h "H" ++ component m "M" ++ seconds_text sec.

(** The integer that the digits of a part write; a part that is absent
    counts for nothing. *)
Definition count (part : option string) : Z :=
  match part with
  | Some ds => decimal ds
  | None => 0
  end.

(** hours x 3600 + minutes x 60 + seconds, for a duration without a
    fraction of a second. *)
Definition whole_seconds (h m : option string)
    (sec : option (string * option string)) : Z :=
  (count h * 3600 + count m * 60 + count (option_map fst sec))%Z.

Definition no_fraction (sec : option (string * option string)) : bool :=
  match sec with
  | Some (_, Some _) => false
  | _ => true
  end.

(** hours x 3600 + minutes x 60 + seconds + fractional, in the arithmetic
    of the rationals. *)
Definition exact_seconds (h m : option string)
    (sec : option (string * option string)) : Q :=
  (inject_Z (count h) * 3600 + inject_Z (count m) * 60
   + inject_Z (count (option_map fst sec))
   + match sec with
     | Some (_, Some fs) => fraction fs
     | _ => 0
     end)%Q.

(** The same sum in the arithmetic of binary64: each part is the number
    nearest to what its digits write, and each operation rounds its
    result. *)
Definition nearest (part : option string) : float64 :=
  match part with
  | Some ds => round64_Q (inject_Z (decimal ds))
  | None => Finite 0
  end.

Definition binary64_seconds (h m : option string)
    (sec : option (string * option string)) : float64 :=
  plus (plus (plus (times (nearest h) 3600) (times (nearest m) 60))
             (nearest (option_map fst sec)))
       match sec with
       | Some (_, Some fs) => round64_Q (fraction fs)
       | _ => Finite 0
       end.

(** The groups of the pattern. *)
Definition hours_group : regex := Cat (Grp 1 Digits) (Chr "H").
Definition minutes_group : regex := Cat (Grp 2 Digits) (Chr "M").
Definition seconds_group : regex :=
  Cat (Grp 3 Digits) (Cat (Opt (Grp 4 (Cat (Chr ".") Digits))) (Chr "S")).

(** The end of the pattern. *)
Definition at_end (rest : string) (caps : captures) : option captures :=
  if rest =? "" then Some caps else None.

(** What [(\.\d+)?S] makes of the text [rest] that follows the digits of
    the seconds. *)
Definition after_seconds (rest : string) (caps : captures)
    (K : string -> captures -> option captures) : option captures :=
  match rest with
  | "" => None
  | String c t =>
      if Ascii.eqb "." c then
        let (fs, rest') := span_digits t in
        if fs =? "" then None
        else match rest' with
             | "" => None
             | String c' t' =>
                 if Ascii.eqb "S" c' then K t' ((4%nat, String "." fs) :: caps)
                 else None
             end
      else if Ascii.eqb "S" c then K t caps else None
  end.

(** ** Further vocabulary of the pagination engine *)

Section RunVocabulary.
Variable JSON_parse : string -> option value.

(** The continuation token of the answer of a round. *)
Definition continuation (r : round) : value :=
  match JSON_parse (response (res r)) with
  | Some body => field body "more"
  | None => Undefined
  end.

(** A round that adds nothing and asks for more: the store answers with a
    page none of whose records passes the filter and with a continuation
    token, and the stop button is left alone. *)
Definition idle (r : round) : bool :=
  (status (res r) =? 200)%Z
  && negb (stop_clicked r)
  && match JSON_parse (response (res r)) with
     | Some body =>
         truthy (field body "statements")
         && match filter_statements (field body "statements") with
            | Return [] => true
            | _ => false
            end
         && truthy (field body "more")
     | None => false
     end.

(** A round whose page has at least one record that passes the filter, if
    it has a page at all. *)
Definition productive (r : round) : bool :=
  match accepted_records JSON_parse r with
  | Some [] => false
  | _ => true
  end.

End RunVocabulary.

(** ** Further vocabulary of the rows *)

(** The number of occurrences of the character [c] in [s]. *)
Fixpoint count_char (c : ascii) (s : string) : nat :=
  match s with
  | "" => 0%nat
  | String d s' => ((if Ascii.eqb c d then 1 else 0) + count_char c s')%nat
  end.

(** ** Further vocabulary of the name of the file *)

(** The two decimal digits of a number below one hundred: the tens, with a
    zero for a number below ten, and the units. *)
Definition two_digits (n : nat) : string :=
  String (ascii_of_nat (48 + n / 10))
         (String (ascii_of_nat (48 + n mod 10)) "").

(** * Records and answers of a store, for the examples *)

(** A store for the examples: records that pass the filter, and the answer
    that carries a page of records and a continuation token. *)
Definition learner_record (n : string) : value :=
  Obj [("id", Str n);
       ("actor", Obj [("mbox", Str "mailto:alice@example.com")]);
       ("verb", Obj [("display", Obj [("en-US", Str "answered")])]);
       ("object", Obj [("id", Str "http://example.com/q1")]);
       ("timestamp", Str "2024-07-15T10:00:00Z")].

Definition page_answer (records : list value) (token : string) : xhr :=
  {| status := 200;
     response := Reference.JSON_stringify None
                   (Obj [("statements", Arr records); ("more", Str token)]) |}.

Definition three_records : list value :=
  [learner_record "1"; learner_record "2"; learner_record "3"].

Definition two_records : list value := [learner_record "1"; learner_record "2"].

Definition anonymous_sender : value :=
  Obj [("id", Str "7"); ("actor", Obj [("mbox", Str "mailto:@example.com")]);
       ("verb", Obj [("display", Obj [("en-US", Str "answered")])]);
       ("object", Obj [("id", Str "http://example.com/q1")])].

(** A record with an empty mailbox identifier: the identifier is not null,
    and it is falsy. *)
Definition empty_mbox_record : value :=
  Obj [("id", Str "1");
       ("actor", Obj [("mbox", Str "")]);
       ("verb", Obj [("display", Obj [("en-US", Str "answered")])])].

(** A record of an answered multiple-choice question, with the JSON texts
    of its result in [response] and [choices]. *)
Definition choice (i description : string) : value :=
  Obj [("id", Str i); ("description", Obj [("und", Str description)])].

Definition question_record (response choices : string) (correctPattern responses : value)
  : value :=
  Obj [("id", Str "42");
       ("actor", Obj [("mbox", Str "mailto:alice@example.com")]);
       ("verb", Obj [("display", Obj [("en-US", Str "answered")])]);
       ("object", Obj [("id", Str "http://example.com/q1");
                       ("definition", Obj [("name", Obj [("en-US", Str "Question 1")])])]);
       ("result", Obj [("duration", Str "PT1M30S");
                       ("response", Str response);
                       ("choices", Str choices);
                       ("correctResponsesPattern", correctPattern);
                       ("responses", responses)]);
       ("timestamp", Str "2024-07-15T10:00:00Z")].

Definition two_choices : string :=
  Reference.JSON_stringify None (Arr [choice "a" "Alpha"; choice "b" "Beta"]).

Definition no_success_record : value :=
  question_record "{}" two_choices (Str "[a[,]b]") (Str "[b]").

Definition passed_response : string :=
  Reference.JSON_stringify None (Obj [("success", Bool true)]).

Definition two_choice_record : value :=
  question_record passed_response two_choices (Str "[a[,]b]") (Str "[b]").

Definition two_page_store : list round :=
  [ {| res := page_answer two_records "/more/1"; stop_clicked := false |};
    {| res := page_answer [empty_mbox_record; learner_record "3"] "";
       stop_clicked := false |} ].

Definition idle_store : list round :=
  [ {| res := page_answer [empty_mbox_record] "/more/1"; stop_clicked := false |};
    {| res := page_answer [] "/more/2"; stop_clicked := false |};
    {| res := page_answer [empty_mbox_record] "/more/3"; stop_clicked := false |} ].

Definition objectless_record : value :=
  Obj [("id", Str "9");
       ("actor", Obj [("mbox", Str "mailto:bob@example.com")]);
       ("verb", Obj [("display", Obj [("en-US", Str "voided")])]);
       ("timestamp", Str "2024-07-15T10:00:00Z")].

(** * Properties *)

(** ** Strings *)

Lemma append_nil_r (s : string) : s ++ "" = s.
Proof. induction s; simpl; congruence. Qed.

Lemma append_assoc (a b c : string) : (a ++ b) ++ c = a ++ (b ++ c).
Proof. induction a; simpl; congruence. Qed.

Lemma length_append (a b : string) :
  String.length (a ++ b) = (String.length a + String.length b)%nat.
Proof. induction a; simpl; congruence. Qed.

Lemma split_char_absent (c : ascii) (s : string) :
  mem_char c s = false -> split (String c "") s = [s].
Proof.
  unfold split.
  induction s as [|d s IH]; cbn [mem_char split_from starts_with]; intros H;
    [reflexivity|].
  apply orb_false_iff in H. destruct H as [Hc Hs].
  rewrite Hc, (IH Hs). reflexivity.
Qed.

Lemma split_at_once (local domain : string) :
  mem_char "@" local = false -> mem_char "@" domain = false ->
  split "@" (local ++ "@" ++ domain) = [local; domain].
Proof.
  intros Hl Hd. unfold split.
  induction local as [|c l IH].
  - cbn. fold (split "@" domain). rewrite (split_char_absent "@" _ Hd). reflexivity.
  - cbn [mem_char] in Hl. apply orb_false_iff in Hl. destruct Hl as [Hc Hl].
    change ((String c l ++ "@" ++ domain))
      with (String c (l ++ "@" ++ domain)).
    cbn [split_from starts_with]. rewrite Hc, (IH Hl). reflexivity.
Qed.

(** ** Anonymisation *)

(** C7. [obfuscateEmail] keeps the first character of the local part, puts
    one mask character ['*'] in the place of every other character of the
    local part, and leaves the ['@'] and the domain as they are: for an
    address [local@domain] with a non-empty local part [c :: rest] (and no
    other ['@']), the result is [c], then as many ['*'] as [rest] has
    characters, then [@domain]. *)
Theorem obfuscateEmail_masks_local_part (c : ascii) (rest domain : string) :
  mem_char "@" (String c rest) = false ->
  mem_char "@" domain = false ->
  obfuscateEmail (String c rest ++ "@" ++ domain)
  = Return (String c (replicate (String.length rest) "*") ++ "@" ++ domain).
Proof.
  intros Hl Hd. unfold obfuscateEmail.
  rewrite (split_at_once _ _ Hl Hd). cbn [nth nth_error charAt0].
  unfold repeat_str.
  replace (Z.of_nat (String.length (String c rest)) - 1)%Z
    with (Z.of_nat (String.length rest)) by (cbn [String.length]; lia).
  destruct (Z.ltb_spec (Z.of_nat (String.length rest)) 0) as [H|_]; [lia|].
  rewrite Nat2Z.id. reflexivity.
Qed.

Lemma obfuscateEmail_examples :
  obfuscateEmail "alice@example.com" = Return "a****@example.com"
  /\ obfuscateEmail "a@b.com" = Return "a@b.com".
Proof.
  split.
  - apply (obfuscateEmail_masks_local_part "a" "lice" "example.com"); reflexivity.
  - apply (obfuscateEmail_masks_local_part "a" "" "b.com"); reflexivity.
Defined.

Lemma obfuscateEmail_empty_local_part (address : string) :
  address = "" \/ (exists rest, address = String "@" rest) ->
  exists e, obfuscateEmail address = Throw e /\ is_RangeError e = true.
Proof.
  intros [E|[rest E]]; subst address.
  - eexists. split; reflexivity.
  - unfold obfuscateEmail, split. cbn. eexists. split; reflexivity.
Qed.

(** C9. An address whose local part is empty (the empty string, or a string
    that starts with ['@']) makes [obfuscateEmail] throw a [RangeError],
    the count given to [repeat] being [-1]; hence the extraction of a row
    with anonymisation switched on throws for every record whose mailbox
    identifier, once [mailto:] is removed, is such an address. *)
Theorem obfuscateEmail_throws_on_empty_local_part
    (JSON_parse : string -> option value) (Number_toString : Q -> string)
    (s a : value) (mbox : string) :
  get s "actor" = Return a ->
  get a "mbox" = Return (Str mbox) ->
  mbox <> "" ->
  (replace_first "mailto:" "" mbox = ""
   \/ exists rest, replace_first "mailto:" "" mbox = String "@" rest) ->
  (exists e, obfuscateEmail (replace_first "mailto:" "" mbox) = Throw e
             /\ is_RangeError e = true)
  /\ (exists e, extract JSON_parse Number_toString true s = Throw e
                /\ is_RangeError e = true).
Proof.
  intros Ha Hm Hne Hshape.
  destruct (obfuscateEmail_empty_local_part _ Hshape) as [e [He Hr]].
  split; [exists e; auto|].
  exists e. split; [|exact Hr].
  unfold extract.
  assert (Hid : exists v, get s "id" = Return v).
  { destruct s; simpl in Ha; try discriminate; eexists; reflexivity. }
  destruct Hid as [v Hv]. rewrite Hv, Ha. cbn [bind]. rewrite Hm. cbn [bind].
  assert (Ht : truthy (Str mbox) = true).
  { simpl. destruct (String.eqb_spec mbox ""); [contradiction|reflexivity]. }
  rewrite Ht. cbn [strip_mailto bind]. rewrite He. reflexivity.
Qed.

Lemma obfuscateEmail_throws_on_empty_local_part_witness :
  (exists e, obfuscateEmail "@example.com" = Throw e /\ is_RangeError e = true)
  /\ (exists e, extract Reference.JSON_parse Reference.Number_toString true
                  anonymous_sender = Throw e /\ is_RangeError e = true).
Proof.
  apply (obfuscateEmail_throws_on_empty_local_part
           Reference.JSON_parse Reference.Number_toString anonymous_sender
           (Obj [("mbox", Str "mailto:@example.com")]) "mailto:@example.com").
  - reflexivity.
  - reflexivity.
  - discriminate.
  - right. exists "example.com". reflexivity.
Defined.

(** ** The record filter *)

Lemma get_field (v : value) (k : string) :
  non_null v = true -> get v k = Return (field v k).
Proof. destruct v; simpl; intros H; try discriminate; reflexivity. Qed.

Lemma truthy_non_null (v : value) : truthy v = true -> non_null v = true.
Proof. destruct v; simpl; intros H; try discriminate; reflexivity. Qed.

(** C8, as stated, fails: the record [empty_mbox_record] has the four
    values non-null and the filter drops it. *)
Lemma accept_non_null_counterexample :
  ~ (forall r : value, accept r = Return true <-> accept_non_null r = true).
Proof.
  intros H. destruct (H empty_mbox_record) as [_ H2].
  specialize (H2 eq_refl). discriminate H2.
Qed.

(** C8, amended. For every record other than [null], the filter raises no
    error, and it accepts the record if and only if the actor, its mailbox
    identifier, the verb and its display-label map are all truthy (present,
    and none of [null], [false], [0] and the empty string); every record it
    accepts has the four values non-null. *)
Theorem accept_iff_truthy (s : value) :
  non_null s = true ->
  accept s = Return (accept_truthy s)
  /\ (accept_truthy s = true -> accept_non_null s = true).
Proof.
  intros Hs. split.
  - unfold accept, accept_truthy.
    rewrite (get_field _ _ Hs). cbn [bind].
    destruct (truthy (field s "actor")) eqn:Ha; cbn [negb andb]; [|reflexivity].
    rewrite (get_field _ _ (truthy_non_null _ Ha)). cbn [bind].
    destruct (truthy (field (field s "actor") "mbox")); cbn [negb andb];
      [|reflexivity].
    rewrite (get_field _ _ Hs). cbn [bind].
    destruct (truthy (field s "verb")) eqn:Hv; cbn [negb andb]; [|reflexivity].
    rewrite (get_field _ _ (truthy_non_null _ Hv)). reflexivity.
  - unfold accept_truthy, accept_non_null. intros H.
    repeat (apply andb_true_iff in H; destruct H as [H ?]).
    repeat (apply andb_true_iff; split); apply truthy_non_null; assumption.
Qed.

Lemma accept_iff_truthy_witness :
  accept empty_mbox_record = Return false
  /\ (accept_truthy empty_mbox_record = true ->
      accept_non_null empty_mbox_record = true).
Proof. apply (accept_iff_truthy empty_mbox_record). reflexivity. Defined.

(** ** The pagination engine *)

Section Pagination.
Variable JSON_parse : string -> option value.
Variable limit : Z.

Lemma on_response_Continue (st st' : session) (r : round) :
  on_response JSON_parse st r = Continue st' ->
  exists page,
    accepted_records JSON_parse r = Some page
    /\ allStatements st' = (allStatements st ++ page)%list
    /\ fetchedCount st' = (fetchedCount st + List.length page)%nat.
Proof.
  unfold on_response, accepted_records.
  destruct (negb (status (res r) =? 200)%Z); [discriminate|].
  destruct (JSON_parse (response (res r))) as [body|]; [|discriminate].
  destruct (get body "statements") as [statements|e]; cbn [bind];
    [|discriminate].
  destruct (truthy statements); cbn [negb]; [|discriminate].
  destruct (filter_statements statements) as [page|e]; cbn [bind];
    [|discriminate].
  destruct (get body "more") as [token|e]; cbn [bind]; [|discriminate].
  match goal with |- (if ?c then _ else _) = _ -> _ => destruct c end;
    [|discriminate].
  intros H. injection H as <-. exists page. auto.
Qed.

Lemma on_response_Resolved (st : session) (r : round) (acc : list value) :
  on_response JSON_parse st r = Settle (Resolved acc) ->
  exists page,
    accepted_records JSON_parse r = Some page
    /\ acc = (allStatements st ++ page)%list.
Proof.
  unfold on_response, accepted_records.
  destruct (negb (status (res r) =? 200)%Z); [discriminate|].
  destruct (JSON_parse (response (res r))) as [body|]; [|discriminate].
  destruct (get body "statements") as [statements|e]; cbn [bind];
    [|discriminate].
  destruct (truthy statements); cbn [negb]; [|discriminate].
  destruct (filter_statements statements) as [page|e]; cbn [bind];
    [|discriminate].
  destruct (get body "more") as [token|e]; cbn [bind]; [|discriminate].
  match goal with |- (if ?c then _ else _) = _ -> _ => destruct c end;
    [discriminate|].
  intros H. injection H as <-. exists page. auto.
Qed.

Lemma not_finished_below_limit (st : session) :
  finished limit st = false -> counted st ->
  (Z.of_nat (List.length (allStatements st)) < limit)%Z.
Proof.
  unfold finished, counted. intros H Hc.
  apply orb_false_iff in H. destruct H as [_ H].
  apply Z.leb_gt in H. rewrite <- Hc. exact H.
Qed.

Lemma requests_below_limit (env : list round) :
  forall st, counted st ->
  Forall (fun st' => (Z.of_nat (List.length (allStatements st')) < limit)%Z)
         (requests JSON_parse limit env st).
Proof.
  induction env as [|r env IH]; intros st Hc; cbn [requests];
    destruct (finished limit st) eqn:Hf; try constructor;
    try (apply not_finished_below_limit; assumption); try constructor.
  destruct (on_response JSON_parse st r) as [st'|o] eqn:Hr; [|constructor].
  apply IH. destruct (on_response_Continue _ _ _ Hr) as [page [_ [Ha Hn]]].
  unfold counted in *. rewrite Ha, Hn, Hc, length_app. reflexivity.
Qed.

End Pagination.








(** ** The tabular row *)

Section Rows.
Variable JSON_parse : string -> option value.
Variable Number_toString : Q -> string.

Local Abbreviation text_of := (ToString Number_toString).
Local Abbreviation question_fields' := (question_fields JSON_parse Number_toString).
Local Abbreviation extract' := (extract JSON_parse Number_toString).

Ltac step_bind :=
  match goal with
  | |- context [bind ?m _] =>
      let E := fresh "E" in destruct m eqn:E; cbn [bind]
  end.

(** The question fields of a row are those of [question_fields]. *)
Lemma extract_Return (obf : bool) (s : value) (row : TabularRow) :
  extract' obf s = Return row ->
  exists q,
    question_fields' s = Return q
    /\ questionAnswers row = q_answers q
    /\ questionPassed row = q_passed q
    /\ questionCorrectAnswers row = q_correct q
    /\ usersAnswer row = q_users q.
Proof.
  unfold extract. repeat (step_bind; [|discriminate]).
  intros H. injection H as <-. eexists. split; [reflexivity|]. cbn. auto.
Qed.

(** An exception of [question_fields] leaves no row. *)
Lemma extract_Throw (obf : bool) (s : value) (e : exn) :
  question_fields' s = Throw e ->
  exists e', extract' obf s = Throw e'.
Proof.
  intros H. unfold extract. rewrite H.
  repeat (step_bind; [|eexists; reflexivity]).
  eexists; reflexivity.
Qed.

Lemma question_fields_undecodable (s result resp : value) :
  get s "result" = Return result -> truthy result = true ->
  get result "response" = Return resp -> truthy resp = true ->
  JSON_parse (text_of resp) = None ->
  exists e, question_fields' s = Throw e /\ is_SyntaxError e = true.
Proof.
  intros Hr Htr Hresp Htresp Hp. unfold question_fields, parse.
  rewrite Hr. cbn [bind]. rewrite Htr. cbn [negb]. rewrite Hresp. cbn [bind].
  rewrite Htresp. cbn [negb]. rewrite Hp. cbn [bind].
  eexists. split; reflexivity.
Qed.
End Rows.

(** C1, at a failing input. The record [question_record] whose
    [result.response] is the text [not json]: the code has no handler
    around [JSON.parse] (lines 220-241), so the [SyntaxError] leaves the
    row computation, and with it the whole CSV encoding; the row that the
    specification asks for, with the four question fields empty, is not
    produced. *)
Theorem extract_throws_on_undecodable_response :
  let s := question_record "not json" two_choices (Str "[a[,]b]") (Str "[b]") in
  (exists e,
      question_fields Reference.JSON_parse Reference.Number_toString s = Throw e
      /\ is_SyntaxError e = true)
  /\ (exists e,
        extract Reference.JSON_parse Reference.Number_toString false s = Throw e
        /\ is_SyntaxError e = true)
  /\ throws (processStatements Reference.JSON_parse Reference.JSON_stringify
               Reference.Number_toString [learner_record "1"; s] "csv" false)
     = true.
Proof.
  intros s. split; [|split].
  - apply (question_fields_undecodable Reference.JSON_parse
             Reference.Number_toString s
             (field s "result") (Str "not json")); reflexivity.
  - eexists. split; vm_compute; reflexivity.
  - vm_compute. reflexivity.
Qed.

(** *** The question fields *)

Lemma mem_char_append (c : ascii) (a b : string) :
  mem_char c (a ++ b) = mem_char c a || mem_char c b.
Proof.
  induction a as [|d a IH]; cbn [append mem_char]; [reflexivity|].
  rewrite IH. apply orb_assoc.
Qed.

Lemma trim_end_closing (x : string) : trim_end (x ++ "]") = x ++ "]".
Proof.
  induction x as [|c x IH]; [reflexivity|].
  cbn [append trim_end]. rewrite IH.
  destruct (x ++ "]") eqn:E.
  - destruct x; discriminate E.
  - cbn [String.eqb]. rewrite andb_false_r. reflexivity.
Qed.

Lemma strip_last_closing (c : ascii) (x : string) :
  strip_last c (x ++ String c "") = x.
Proof.
  induction x as [|d x IH].
  - cbn. rewrite Ascii.eqb_refl. reflexivity.
  - cbn [append strip_last]. rewrite IH.
    destruct (x ++ String c "") eqn:E; [destruct x; discriminate E|reflexivity].
Qed.

Lemma strip_last_absent (c : ascii) (x : string) :
  mem_char c x = false -> strip_last c x = x.
Proof.
  induction x as [|d x IH]; [reflexivity|].
  cbn [mem_char strip_last]. intros H. apply orb_false_iff in H.
  destruct H as [Hd Hx]. rewrite (IH Hx), Hd. destruct x; reflexivity.
Qed.

Lemma strip_first_absent (c : ascii) (x : string) :
  mem_char c x = false -> strip_first c x = x.
Proof.
  destruct x as [|d x]; [reflexivity|].
  cbn [mem_char strip_first]. intros H. apply orb_false_iff in H.
  destruct H as [Hd _]. rewrite Hd. reflexivity.
Qed.

Lemma split_separator_absent (x : string) :
  mem_char "[" x = false -> split "[,]" x = [x].
Proof.
  unfold split.
  induction x as [|c x IH]; cbn [mem_char split_from starts_with]; intros H;
    [reflexivity|].
  apply orb_false_iff in H. destruct H as [Hc Hx].
  rewrite Hc, (IH Hx). reflexivity.
Qed.

Lemma split_separator_first (x rest : string) :
  mem_char "[" x = false ->
  split "[,]" (x ++ "[,]" ++ rest) = x :: split "[,]" rest.
Proof.
  unfold split. intros H.
  induction x as [|c x IH].
  - cbn. destruct rest; reflexivity.
  - cbn [mem_char] in H. apply orb_false_iff in H. destruct H as [Hc Hx].
    change (String c x ++ "[,]" ++ rest) with (String c (x ++ "[,]" ++ rest)).
    cbn [split_from starts_with]. rewrite Hc, (IH Hx). reflexivity.
Qed.

Lemma plain_parts (i : string) :
  plain i = true -> mem_char "[" i = false /\ mem_char dquote i = false.
Proof.
  unfold plain. intros H. apply andb_true_iff in H. destruct H as [H1 H2].
  split; [destruct (mem_char "[" i)|destruct (mem_char dquote i)];
    try reflexivity; discriminate.
Qed.

Lemma split_join (ids : list string) :
  ids <> [] -> forallb plain ids = true ->
  split "[,]" (join "[,]" ids) = ids
  /\ mem_char dquote (join "[,]" ids) = false.
Proof.
  induction ids as [|i ids IH]; intros Hne Hall; [contradiction|].
  cbn [forallb] in Hall. apply andb_true_iff in Hall. destruct Hall as [Hi Hall].
  destruct (plain_parts _ Hi) as [Hb Hq].
  destruct ids as [|j ids].
  - cbn [join]. split; [apply split_separator_absent; exact Hb|exact Hq].
  - destruct (IH ltac:(discriminate) Hall) as [IH1 IH2].
    change (join "[,]" (i :: j :: ids)) with (i ++ "[,]" ++ join "[,]" (j :: ids)).
    split.
    + rewrite (split_separator_first _ _ Hb), IH1. reflexivity.
    + rewrite !mem_char_append, Hq, IH2. reflexivity.
Qed.

Lemma trim_bracketed (x : string) : trim ("[" ++ x ++ "]") = "[" ++ x ++ "]".
Proof.
  unfold trim.
  change (trim_start ("[" ++ x ++ "]")) with (String "[" x ++ "]").
  apply trim_end_closing.
Qed.

(** A pattern written between brackets, its ids separated by [[,]], is
    parsed into the array of its ids. *)
Lemma processStringToArray_bracketed (ids : list string) :
  ids <> [] -> forallb plain ids = true ->
  processStringToArray (Str (bracketed ids)) = Return ids.
Proof.
  intros Hne Hall. destruct (split_join ids Hne Hall) as [Hs Hq].
  cbn [processStringToArray]. f_equal.
  unfold processStringToArray_string, bracketed.
  rewrite (trim_bracketed (join "[,]" ids)).
  unfold strip_ends.
  change (strip_first "[" ("[" ++ join "[,]" ids ++ "]"))
    with (join "[,]" ids ++ "]").
  rewrite strip_last_closing.
  rewrite (strip_first_absent _ _ Hq), (strip_last_absent _ _ Hq).
  exact Hs.
Qed.

Section Questions.
Variable JSON_parse : string -> option value.
Variable Number_toString : Q -> string.

Local Abbreviation text_of := (ToString Number_toString).

Lemma fold_left_entry (und : string) (ids : list string) :
  forall acc,
    fold_left (fun acc cresp => acc ++ " id=" ++ cresp ++ " Answer=" ++ und ++ "|")
              ids acc
    = acc ++ entries ids und.
Proof.
  induction ids as [|i ids IH]; intros acc; cbn [fold_left entries map cat].
  - symmetry. apply append_nil_r.
  - rewrite IH. rewrite append_assoc. reflexivity.
Qed.

Lemma on_choice_proper (result : value) (correctPattern responses : string)
    (q : question) (c : value) :
  get result "correctResponsesPattern" = Return (Str correctPattern) ->
  get result "responses" = Return (Str responses) ->
  proper_choice c = true ->
  on_choice Number_toString result q c
  = Return {| q_answers := q_answers q ++ answer Number_toString (q_i q) c;
              q_passed := q_passed q;
              q_correct := entries (processStringToArray_string correctPattern)
                                   (description_text Number_toString c);
              q_users := entries (processStringToArray_string responses)
                                 (description_text Number_toString c);
              q_i := S (q_i q) |}.
Proof.
  intros Hp Hr Hc. apply andb_true_iff in Hc. destruct Hc as [Hc Hd].
  unfold on_choice.
  rewrite !(get_field c _ Hc). cbn [bind].
  rewrite (get_field _ _ Hd). cbn [bind].
  rewrite Hp, Hr. cbn [bind processStringToArray].
  rewrite !fold_left_entry. reflexivity.
Qed.

Lemma last_cons {A : Type} (l : list A) :
  forall x d : A, last (x :: l) d = last l x.
Proof.
  induction l as [|y l IH]; intros x d; [reflexivity|].
  change (last (x :: y :: l) d) with (last (y :: l) d).
  rewrite (IH y d), (IH y x). reflexivity.
Qed.

(** The loop over the choices: [questionAnswers] grows with every
    choice; the two other strings are set anew by every choice, so that
    they end as the last choice leaves them. *)
Lemma forEach_choices (result : value) (correctPattern responses : string)
    (choices : list value) :
  get result "correctResponsesPattern" = Return (Str correctPattern) ->
  get result "responses" = Return (Str responses) ->
  forallb proper_choice choices = true ->
  forall q,
    foldM (on_choice Number_toString result) choices q
    = Return
        {| q_answers := q_answers q ++ answers Number_toString (q_i q) choices;
           q_passed := q_passed q;
           q_correct :=
             last (map (fun c => entries (processStringToArray_string correctPattern)
                                         (description_text Number_toString c)) choices)
                  (q_correct q);
           q_users :=
             last (map (fun c => entries (processStringToArray_string responses)
                                         (description_text Number_toString c)) choices)
                  (q_users q);
           q_i := (q_i q + List.length choices)%nat |}.
Proof.
  intros Hp Hr. induction choices as [|c l IH]; intros Hall q.
  - cbn. rewrite append_nil_r, Nat.add_0_r. destruct q; reflexivity.
  - cbn [forallb] in Hall. apply andb_true_iff in Hall.
    destruct Hall as [Hc Hl].
    cbn [foldM]. rewrite (on_choice_proper _ _ _ _ _ Hp Hr Hc). cbn [bind].
    rewrite (IH Hl). cbn [q_answers q_passed q_correct q_users q_i].
    cbn [map]. rewrite !last_cons. cbn [answers List.length].
    rewrite append_assoc, Nat.add_succ_r. reflexivity.
Qed.

Lemma question_fields_run (s result res : value) (choices : list value)
    (correctPattern responses : string) :
  question_data JSON_parse Number_toString s result res choices correctPattern responses ->
  question_fields JSON_parse Number_toString s
  = Return
      {| q_answers := answers Number_toString 1 choices;
         q_passed := if truthy (field res "success") then "True" else "False";
         q_correct :=
           last (map (fun c => entries (processStringToArray_string correctPattern)
                                       (description_text Number_toString c)) choices) "";
         q_users :=
           last (map (fun c => entries (processStringToArray_string responses)
                                       (description_text Number_toString c)) choices) "";
         q_i := (1 + List.length choices)%nat |}.
Proof.
  intros [Hres [resp [Hresp [Ht Hparse]]] Hnn [text [Hch Hcp]] Hall Hp Hr].
  unfold question_fields, parse. rewrite Hres. cbn [bind].
  assert (Htr : truthy result = true).
  { destruct result; cbn in Hresp; try discriminate;
      try (injection Hresp as <-; discriminate Ht); reflexivity. }
  rewrite Htr. cbn [negb]. rewrite Hresp. cbn [bind]. rewrite Ht. cbn [negb].
  rewrite Hparse. cbn [bind]. rewrite (get_field _ _ Hnn). cbn [bind].
  rewrite Hch. cbn [bind]. rewrite Hcp. cbn [bind forEach].
  rewrite (forEach_choices _ _ _ _ Hp Hr Hall). reflexivity.
Qed.

Ltac step_bind :=
  match goal with
  | |- context [bind ?m _] =>
      let E := fresh "E" in destruct m eqn:E; cbn [bind]
  end.

Lemma on_choice_passed (result : value) (q q' : question) (c : value) :
  on_choice Number_toString result q c = Return q' ->
  q_passed q' = q_passed q.
Proof.
  unfold on_choice. repeat (step_bind; [|discriminate]).
  intros H. injection H as <-. reflexivity.
Qed.

Lemma foldM_passed (result : value) (l : list value) :
  forall q q', foldM (on_choice Number_toString result) l q = Return q' ->
               q_passed q' = q_passed q.
Proof.
  induction l as [|c l IH]; intros q q'; cbn [foldM].
  - intros H. injection H as <-. reflexivity.
  - destruct (on_choice Number_toString result q c) as [q1|e] eqn:E;
      cbn [bind]; [|discriminate].
    intros H. rewrite (IH _ _ H). exact (on_choice_passed _ _ _ _ E).
Qed.

(** After line 222 the block leaves [questionPassed] as it is. *)
Lemma question_fields_passed (s result resp res : value) (q : question) :
  get s "result" = Return result ->
  get result "response" = Return resp -> truthy resp = true ->
  JSON_parse (text_of resp) = Some res -> non_null res = true ->
  question_fields JSON_parse Number_toString s = Return q ->
  q_passed q = if truthy (field res "success") then "True" else "False".
Proof.
  intros Hres Hresp Ht Hparse Hnn. unfold question_fields, parse.
  rewrite Hres. cbn [bind].
  assert (Htr : truthy result = true).
  { destruct result; cbn in Hresp; try discriminate;
      try (injection Hresp as <-; discriminate Ht); reflexivity. }
  rewrite Htr. cbn [negb]. rewrite Hresp. cbn [bind]. rewrite Ht. cbn [negb].
  rewrite Hparse. cbn [bind]. rewrite (get_field _ _ Hnn). cbn [bind].
  destruct (get result "choices") as [text|e]; cbn [bind]; [|discriminate].
  destruct (JSON_parse (text_of text)) as [parsed|]; cbn [bind];
    [|discriminate].
  destruct parsed; cbn [forEach]; try discriminate.
  intros H. rewrite (foldM_passed _ _ _ _ H). reflexivity.
Qed.
End Questions.

(** C10. When [result.response] is present and decodes to an object whose
    [success] is absent, [false] or otherwise falsy, every row the
    extraction returns for the record has [questionPassed] equal to
    ["False"]: an absent flag reads as an explicit [false].  The row is
    returned whenever the rest of the question block runs to its end. *)
Theorem questionPassed_False_when_success_falsy
    (JSON_parse : string -> option value) (Number_toString : Q -> string)
    (s result resp res : value) :
  get s "result" = Return result ->
  get result "response" = Return resp -> truthy resp = true ->
  JSON_parse (ToString Number_toString resp) = Some res ->
  non_null res = true ->
  truthy (field res "success") = false ->
  (forall q, question_fields JSON_parse Number_toString s = Return q ->
             q_passed q = "False")
  /\ (forall obf row, extract JSON_parse Number_toString obf s = Return row ->
                      questionPassed row = "False")
  /\ (forall choices correctPattern responses,
        question_data JSON_parse Number_toString s result res choices
                      correctPattern responses ->
        exists q, question_fields JSON_parse Number_toString s = Return q
                  /\ q_passed q = "False").
Proof.
  intros Hres Hresp Ht Hparse Hnn Hfalsy.
  assert (H1 : forall q, question_fields JSON_parse Number_toString s = Return q ->
                         q_passed q = "False").
  { intros q Hq.
    rewrite (question_fields_passed JSON_parse Number_toString
               s result resp res q Hres Hresp Ht Hparse Hnn Hq).
    rewrite Hfalsy. reflexivity. }
  split; [exact H1|]. split.
  - intros obf row Hrow.
    destruct (extract_Return _ _ _ _ _ Hrow) as [q [Hq [_ [Hp _]]]].
    rewrite Hp. exact (H1 q Hq).
  - intros choices correctPattern responses Hd.
    pose proof (question_fields_run _ _ _ _ _ _ _ _ Hd) as Hrun.
    eexists. split; [exact Hrun|]. exact (H1 _ Hrun).
Qed.

Lemma questionPassed_False_when_success_falsy_witness :
  (forall q, question_fields Reference.JSON_parse Reference.Number_toString
               no_success_record = Return q ->
             q_passed q = "False")
  /\ (forall obf row,
        extract Reference.JSON_parse Reference.Number_toString obf
          no_success_record = Return row ->
        questionPassed row = "False")
  /\ (forall choices correctPattern responses,
        question_data Reference.JSON_parse Reference.Number_toString
          no_success_record (field no_success_record "result") (Obj [])
          choices correctPattern responses ->
        exists q, question_fields Reference.JSON_parse Reference.Number_toString
                    no_success_record = Return q
                  /\ q_passed q = "False").
Proof.
  apply (questionPassed_False_when_success_falsy Reference.JSON_parse
           Reference.Number_toString no_success_record
           (field no_success_record "result") (Str "{}") (Obj []));
    reflexivity.
Defined.

(** The row of [no_success_record], for the reference engine. *)
Example no_success_row :
  option_map questionPassed
    (match extract Reference.JSON_parse Reference.Number_toString false
             no_success_record with
     | Return row => Some row
     | Throw _ => None
     end)
  = Some "False".
Proof. vm_compute. reflexivity. Qed.

(** C4, as stated, fails: for a question with the two choices [Alpha] and
    [Beta] and the correct response [a], the row has the single entry of
    [a] against [Beta] in [questionCorrectAnswers], and not the entries of
    [a] against both choices. *)
Lemma question_strings_counterexample :
  let s := question_record "{}" two_choices (Str "[a]") (Str "[b]") in
  exists row,
    extract Reference.JSON_parse Reference.Number_toString false s = Return row
    /\ questionCorrectAnswers row = " id=a Answer=Beta|"
    /\ cross_join ["a"] ["Alpha"; "Beta"] = " id=a Answer=Alpha| id=a Answer=Beta|"
    /\ questionCorrectAnswers row <> cross_join ["a"] ["Alpha"; "Beta"]
    /\ usersAnswer row <> cross_join ["b"] ["Alpha"; "Beta"].
Proof.
  intros s. eexists. split; [vm_compute; reflexivity|].
  cbn [questionCorrectAnswers usersAnswer].
  repeat split; try reflexivity; vm_compute; discriminate.
Qed.

(** C4, amended. A pattern written between brackets with its ids separated
    by [[,]] is parsed into the array of its ids.  In the loop over the
    choices every id is paired with the description of the choice at hand,
    and both strings are emptied before the pairs of a choice are added:
    the final [questionCorrectAnswers] and [usersAnswer] hold one
    [ id=<id> Answer=<description>|] entry for every response id, each with
    the description of the last choice, and are empty when there is no
    choice. *)
Theorem question_strings_hold_last_choice
    (JSON_parse : string -> option value) (Number_toString : Q -> string)
    (s result res : value) (choices : list value) (correctPattern responses : string) :
  question_data JSON_parse Number_toString s result res choices
                correctPattern responses ->
  let correct :=
    last (map (fun c => entries (processStringToArray_string correctPattern)
                                (description_text Number_toString c)) choices) "" in
  let users :=
    last (map (fun c => entries (processStringToArray_string responses)
                                (description_text Number_toString c)) choices) "" in
  (forall ids, ids <> [] -> forallb plain ids = true ->
               processStringToArray (Str (bracketed ids)) = Return ids)
  /\ (exists q, question_fields JSON_parse Number_toString s = Return q
                /\ q_correct q = correct /\ q_users q = users)
  /\ (forall obf row, extract JSON_parse Number_toString obf s = Return row ->
                      questionCorrectAnswers row = correct
                      /\ usersAnswer row = users).
Proof.
  intros Hd correct users.
  pose proof (question_fields_run _ _ _ _ _ _ _ _ Hd) as Hrun.
  split; [exact processStringToArray_bracketed|]. split.
  - eexists. split; [exact Hrun|]. split; reflexivity.
  - intros obf row Hrow.
    destruct (extract_Return _ _ _ _ _ Hrow) as [q [Hq [_ [_ [Hc Hu]]]]].
    rewrite Hrun in Hq. injection Hq as <-. rewrite Hc, Hu. split; reflexivity.
Qed.

Lemma two_choice_data :
  question_data Reference.JSON_parse Reference.Number_toString
    two_choice_record (field two_choice_record "result")
    (Obj [("success", Bool true)])
    [choice "a" "Alpha"; choice "b" "Beta"] "[a[,]b]" "[b]".
Proof.
  constructor; try reflexivity.
  - exists (Str passed_response). repeat split; reflexivity.
  - exists (Str two_choices). split; [reflexivity|]. vm_compute. reflexivity.
Defined.

Lemma question_strings_hold_last_choice_witness :
  (forall ids, ids <> [] -> forallb plain ids = true ->
               processStringToArray (Str (bracketed ids)) = Return ids)
  /\ (exists q, question_fields Reference.JSON_parse Reference.Number_toString
                  two_choice_record = Return q
                /\ q_correct q = " id=a Answer=Beta| id=b Answer=Beta|"
                /\ q_users q = " id=b Answer=Beta|")
  /\ (forall obf row,
        extract Reference.JSON_parse Reference.Number_toString obf
          two_choice_record = Return row ->
        questionCorrectAnswers row = " id=a Answer=Beta| id=b Answer=Beta|"
        /\ usersAnswer row = " id=b Answer=Beta|").
Proof.
  exact (question_strings_hold_last_choice Reference.JSON_parse
           Reference.Number_toString two_choice_record
           (field two_choice_record "result") (Obj [("success", Bool true)])
           [choice "a" "Alpha"; choice "b" "Beta"] "[a[,]b]" "[b]"
           two_choice_data).
Defined.

(** ** The encoders *)

Lemma join_separator_one_line (lines : list string) :
  forallb (fun l => negb (mem_char line_feed l)) lines = true ->
  mem_char line_feed (join separator lines) = false.
Proof.
  induction lines as [|l lines IH]; intros H; [reflexivity|].
  cbn [forallb] in H. apply andb_true_iff in H. destruct H as [Hl H].
  apply negb_true_iff in Hl.
  destruct lines as [|l' lines]; [exact Hl|].
  change (join separator (l :: l' :: lines))
    with (l ++ separator ++ join separator (l' :: lines)).
  rewrite !mem_char_append, Hl, (IH H). reflexivity.
Qed.

(** As no line feed is put between the records, the payload of the
    line-delimited encoding is a single line, whatever the number of
    records, whenever the text of a record holds no line feed (as with
    [JSON.stringify] and no indentation). *)
Lemma jsonl_payload_one_line
    (JSON_parse : string -> option value)
    (JSON_stringify : option nat -> value -> string)
    (Number_toString : Q -> string) (statements : list value) (obf : bool) :
  (forall v, mem_char line_feed (JSON_stringify None v) = false) ->
  exists text,
    processStatements JSON_parse JSON_stringify Number_toString statements
      "jsonl" obf
    = Return {| data := text; mimeType := "application/json";
                extension := "jsonl" |}
    /\ split newline text = [text].
Proof.
  intros Hline. eexists. split.
  - unfold processStatements. cbn [String.eqb Ascii.eqb Bool.eqb]. reflexivity.
  - apply (split_char_absent line_feed). apply join_separator_one_line.
    induction statements as [|v l IH]; [reflexivity|].
    cbn [map forallb]. rewrite Hline, IH. reflexivity.
Qed.

(** C3, at a failing input. The line-delimited encoding of the two records
    [two_records] joins their texts with a backslash and the letter n
    (line 250), not with a line feed: the payload has no line feed, the
    split on line feeds gives back the whole payload as its only line, and
    that line does not decode.  (A split on the two characters that were
    written recovers the records, and so does the decoding of the [raw]
    payload.) *)
Theorem jsonl_lines_do_not_recover_records :
  exists text raw,
    processStatements Reference.JSON_parse Reference.JSON_stringify
      Reference.Number_toString two_records "jsonl" false
    = Return {| data := text; mimeType := "application/json";
                extension := "jsonl" |}
    /\ text = Reference.JSON_stringify None (learner_record "1") ++ "\n"
              ++ Reference.JSON_stringify None (learner_record "2")
    /\ split newline text = [text]
    /\ map Reference.JSON_parse (split newline text) = [None]
    /\ map Reference.JSON_parse (split newline text) <> map Some two_records
    /\ map Reference.JSON_parse (split separator text) = map Some two_records
    /\ processStatements Reference.JSON_parse Reference.JSON_stringify
         Reference.Number_toString two_records "raw" false
       = Return {| data := raw; mimeType := "application/json";
                   extension := "json" |}
    /\ Reference.JSON_parse raw = Some (Arr two_records).
Proof.
  eexists. eexists.
  split; [vm_compute; reflexivity|].
  split; [vm_compute; reflexivity|].
  split; [vm_compute; reflexivity|].
  split; [vm_compute; reflexivity|].
  split; [vm_compute; discriminate|].
  split; [vm_compute; reflexivity|].
  split; [vm_compute; reflexivity|].
  vm_compute. reflexivity.
Qed.

(** ** Duration conversion *)

Lemma span_digits_spec (s : string) :
  forall ds rest, span_digits s = (ds, rest) ->
  s = ds ++ rest /\ digits_only ds = true
  /\ match rest with "" => True | String c _ => is_digit c = false end.
Proof.
  induction s as [|c s IH]; intros ds rest; cbn [span_digits].
  - intros H. injection H as <- <-. auto.
  - destruct (is_digit c) eqn:Hc.
    + destruct (span_digits s) as [ds' rest'].
      intros H. injection H as <- <-.
      destruct (IH ds' rest' eq_refl) as [E [Hd Hr]].
      cbn [append digits_only]. rewrite Hc, Hd, <- E. auto.
    + intros H. injection H as <- <-. cbn. rewrite Hc. auto.
Qed.

Lemma span_digits_append (ds rest : string) :
  digits_only ds = true ->
  match rest with "" => True | String c _ => is_digit c = false end ->
  span_digits (ds ++ rest) = (ds, rest).
Proof.
  intros Hd Hr. induction ds as [|c ds IH].
  - cbn [append]. destruct rest as [|c t]; [reflexivity|].
    cbn [span_digits]. rewrite Hr. reflexivity.
  - cbn [digits_only] in Hd. apply andb_true_iff in Hd. destruct Hd as [Hc Hd].
    cbn [append span_digits]. rewrite Hc, (IH Hd). reflexivity.
Qed.

Lemma consumed_append (a b : string) : consumed (a ++ b) b = a.
Proof.
  unfold consumed. rewrite length_append.
  replace (String.length a + String.length b - String.length b)%nat
    with (String.length a) by lia.
  induction a as [|c a IH]; cbn [append String.length].
  - destruct b; reflexivity.
  - cbn [substring]. rewrite IH. reflexivity.
Qed.

(** [\d+] in front of a continuation that rejects a digit: the longest run
    of digits is the only one that can be taken. *)
Lemma digits_then_span {A : Type} (k : string -> option A) :
  (forall c t, is_digit c = true -> k (String c t) = None) ->
  forall s ds rest, span_digits s = (ds, rest) ->
  digits_then s k = if ds =? "" then None else k rest.
Proof.
  intros Hk. induction s as [|c s IH]; intros ds rest; cbn [span_digits digits_then].
  - intros H. injection H as <- <-. reflexivity.
  - destruct (is_digit c) eqn:Hc.
    + destruct (span_digits s) as [ds' rest'] eqn:Es.
      intros H. injection H as <- <-. cbn [String.eqb].
      rewrite (IH ds' rest' eq_refl).
      destruct (span_digits_spec s ds' rest' Es) as [E _].
      destruct ds' as [|d ds'].
      * cbn [String.eqb]. cbn [append] in E. rewrite E. reflexivity.
      * cbn [String.eqb]. destruct (k rest') eqn:Ek; [reflexivity|].
        rewrite E. cbn [append]. apply Hk.
        destruct (span_digits_spec s _ _ Es) as [_ [Hd _]].
        cbn [digits_only] in Hd. apply andb_true_iff in Hd. tauto.
    + intros H. injection H as <- <-. reflexivity.
Qed.

Lemma digit_is_not (u c : ascii) :
  is_digit u = false -> is_digit c = true -> Ascii.eqb u c = false.
Proof.
  intros Hu Hc. destruct (Ascii.eqb_spec u c) as [E|_]; [|reflexivity].
  subst c. congruence.
Qed.

(** [(\d+)u] for a unit [u]. *)
Lemma unit_stage (n : nat) (u : ascii) (s ds rest : string) (caps : captures)
    (K : string -> captures -> option captures) :
  is_digit u = false ->
  span_digits s = (ds, rest) ->
  rmatch (Cat (Grp n Digits) (Chr u)) s caps K
  = if ds =? "" then None
    else match rest with
         | "" => None
         | String c t => if Ascii.eqb u c then K t ((n, ds) :: caps) else None
         end.
Proof.
  intros Hu Hs. cbn [rmatch].
  rewrite (digits_then_span _) with (ds := ds) (rest := rest); [|auto|exact Hs].
  - destruct (span_digits_spec s ds rest Hs) as [E _]. subst s.
    rewrite consumed_append. reflexivity.
  - intros c t Hc. rewrite (digit_is_not u c Hu Hc). reflexivity.
Qed.

Lemma fraction_stage (rest : string) (caps : captures)
    (K : string -> captures -> option captures) :
  rmatch (Cat (Opt (Grp 4 (Cat (Chr ".") Digits))) (Chr "S")) rest caps K
  = after_seconds rest caps K.
Proof.
  destruct rest as [|c t]; [reflexivity|].
  cbn [rmatch after_seconds].
  destruct (Ascii.eqb_spec "." c) as [E|Hne].
  - subst c. destruct (span_digits t) as [fs rest'] eqn:Es.
    rewrite (digits_then_span _) with (ds := fs) (rest := rest');
      [| |exact Es].
    + destruct (span_digits_spec t fs rest' Es) as [E _]. subst t.
      change (String "." (fs ++ rest')) with (String "." fs ++ rest').
      rewrite consumed_append.
      destruct (fs =? ""); [reflexivity|].
      destruct rest' as [|c' t']; [reflexivity|].
      destruct (Ascii.eqb "S" c'); [|reflexivity].
      destruct (K t' ((4%nat, String "." fs) :: caps)); reflexivity.
    + intros c t0 Hc. rewrite (digit_is_not "S" c eq_refl Hc). reflexivity.
  - reflexivity.
Qed.

(** [(\d+)(\.\d+)?S] *)
Lemma seconds_stage (s ds rest : string) (caps : captures)
    (K : string -> captures -> option captures) :
  span_digits s = (ds, rest) ->
  rmatch (Cat (Grp 3 Digits) (Cat (Opt (Grp 4 (Cat (Chr ".") Digits))) (Chr "S")))
         s caps K
  = if ds =? "" then None else after_seconds rest ((3%nat, ds) :: caps) K.
Proof.
  intros Hs.
  change (rmatch (Cat (Grp 3 Digits)
                      (Cat (Opt (Grp 4 (Cat (Chr ".") Digits))) (Chr "S"))) s caps K)
    with (digits_then s (fun s' =>
            rmatch (Cat (Opt (Grp 4 (Cat (Chr ".") Digits))) (Chr "S")) s'
                   ((3%nat, consumed s s') :: caps) K)).
  rewrite (digits_then_span _) with (ds := ds) (rest := rest); [| |exact Hs].
  - destruct (span_digits_spec s ds rest Hs) as [E _]. subst s.
    rewrite consumed_append, fraction_stage. reflexivity.
  - intros c t Hc. rewrite fraction_stage. cbn [after_seconds].
    rewrite (digit_is_not "." c eq_refl Hc), (digit_is_not "S" c eq_refl Hc).
    reflexivity.
Qed.

Lemma match_whole_pattern (s0 : string) :
  match_whole pattern (String "P" (String "T" s0))
  = rmatch (Opt hours_group) s0 []
      (fun s1 caps1 => rmatch (Opt minutes_group) s1 caps1
         (fun s2 caps2 => rmatch (Opt seconds_group) s2 caps2 at_end)).
Proof. reflexivity. Qed.

Lemma rmatch_Opt (r : regex) (s : string) (caps : captures)
    (K : string -> captures -> option captures) :
  rmatch (Opt r) s caps K
  = match rmatch r s caps K with
    | Some res => Some res
    | None => K s caps
    end.
Proof. reflexivity. Qed.

Lemma hours_stage (s : string) (caps : captures)
    (K : string -> captures -> option captures) :
  rmatch hours_group s caps K
  = let (ds, rest) := span_digits s in
    if ds =? "" then None
    else match rest with
         | "" => None
         | String c t => if Ascii.eqb "H" c then K t ((1%nat, ds) :: caps) else None
         end.
Proof.
  destruct (span_digits s) as [ds rest] eqn:E.
  exact (unit_stage 1 "H" s ds rest caps K eq_refl E).
Qed.

Lemma minutes_stage (s : string) (caps : captures)
    (K : string -> captures -> option captures) :
  rmatch minutes_group s caps K
  = let (ds, rest) := span_digits s in
    if ds =? "" then None
    else match rest with
         | "" => None
         | String c t => if Ascii.eqb "M" c then K t ((2%nat, ds) :: caps) else None
         end.
Proof.
  destruct (span_digits s) as [ds rest] eqn:E.
  exact (unit_stage 2 "M" s ds rest caps K eq_refl E).
Qed.

Lemma seconds_stage' (s : string) (caps : captures)
    (K : string -> captures -> option captures) :
  rmatch seconds_group s caps K
  = let (ds, rest) := span_digits s in
    if ds =? "" then None else after_seconds rest ((3%nat, ds) :: caps) K.
Proof.
  destruct (span_digits s) as [ds rest] eqn:E.
  exact (seconds_stage s ds rest caps K E).
Qed.

Lemma number_parts (ds : string) :
  number ds = true -> (ds =? "") = false /\ digits_only ds = true.
Proof.
  unfold number. intros H. apply andb_true_iff in H. destruct H as [H1 H2].
  apply negb_true_iff in H1. auto.
Qed.

Ltac use_number :=
  repeat match goal with
    | H : number ?ds = true |- _ =>
        let H1 := fresh "Hne" in
        let H2 := fresh "Hd" in
        destruct (number_parts ds H) as [H1 H2]; clear H
    end.

Lemma span_digits_unit (c : ascii) (t : string) :
  is_digit c = false -> span_digits (String c t) = ("", String c t).
Proof. intros H. cbn [span_digits]. rewrite H. reflexivity. Qed.

(** Comparisons of two literal characters. *)
Ltac compare_literals :=
  repeat match goal with
    | |- context [Ascii.eqb (Ascii ?a0 ?a1 ?a2 ?a3 ?a4 ?a5 ?a6 ?a7)
                            (Ascii ?b0 ?b1 ?b2 ?b3 ?b4 ?b5 ?b6 ?b7)] =>
        let v := eval vm_compute in
                   (Ascii.eqb (Ascii a0 a1 a2 a3 a4 a5 a6 a7)
                              (Ascii b0 b1 b2 b3 b4 b5 b6 b7)) in
        change (Ascii.eqb (Ascii a0 a1 a2 a3 a4 a5 a6 a7)
                          (Ascii b0 b1 b2 b3 b4 b5 b6 b7)) with v
    end.

Ltac settle :=
  repeat first
    [ rewrite span_digits_append by (assumption || exact I || reflexivity)
    | rewrite span_digits_unit by reflexivity
    | progress change (span_digits "") with ("", "")
    | match goal with
      | H : (?ds =? "") = false |- context [?ds =? ""] => rewrite H
      end
    | progress compare_literals
    | progress cbn [after_seconds at_end String.eqb] ].

Ltac run_stage :=
  first
    [ rewrite rmatch_Opt, hours_stage
    | rewrite rmatch_Opt, minutes_stage
    | rewrite rmatch_Opt, seconds_stage' ];
  settle.

Lemma iso8601ToSeconds_well_formed (h m : option string)
    (sec : option (string * option string)) :
  well_formed h m sec = true ->
  iso8601ToSeconds_string (duration_text h m sec)
  = number_value (binary64_seconds h m sec).
Proof.
  unfold well_formed. intros H.
  apply andb_true_iff in H. destruct H as [H Hs].
  apply andb_true_iff in H. destruct H as [Hh Hm].
  unfold iso8601ToSeconds_string, duration_text.
  change ("PT" ++ component h "H" ++ component m "M" ++ seconds_text sec)
    with (String "P" (String "T"
            (component h "H" ++ component m "M" ++ seconds_text sec))).
  rewrite match_whole_pattern.
  destruct h as [hs|], m as [ms|], sec as [[ss [fs|]]|];
    cbn [optional fst snd] in Hh, Hm, Hs;
    try (apply andb_true_iff in Hs; destruct Hs as [Hs Hf]);
    use_number;
    cbn [component seconds_text]; rewrite ?append_assoc; cbn [append].
  all: run_stage; run_stage; run_stage.
  all: cbn [capture Nat.eqb if_captured]; settle.
  all: reflexivity.
Qed.

Lemma number_of_digits (ds : string) :
  (ds =? "") = false -> digits_only ds = true -> number ds = true.
Proof. unfold number. intros -> ->. reflexivity. Qed.

(** What an optional group with a unit has matched, when the pattern
    matches. *)
Lemma opt_unit_inv (n : nat) (u : ascii) (s : string) (caps : captures)
    (K : string -> captures -> option captures) (r : captures) :
  is_digit u = false ->
  rmatch (Opt (Cat (Grp n Digits) (Chr u))) s caps K = Some r ->
  exists part s1 caps1,
    optional number part = true
    /\ s = component part (String u "") ++ s1
    /\ K s1 caps1 = Some r.
Proof.
  intros Hu. rewrite rmatch_Opt.
  destruct (span_digits s) as [ds rest] eqn:Es.
  rewrite (unit_stage n u s ds rest caps K Hu Es).
  destruct (span_digits_spec s ds rest Es) as [E [Hd _]].
  assert (Hskip : K s caps = Some r ->
                  exists part s1 caps1,
                    optional number part = true
                    /\ s = component part (String u "") ++ s1
                    /\ K s1 caps1 = Some r).
  { intros H. exists None, s, caps. auto. }
  destruct (ds =? "") eqn:Hne; [exact Hskip|].
  destruct rest as [|c t]; [exact Hskip|].
  destruct (Ascii.eqb_spec u c) as [Ec|_]; [|exact Hskip].
  destruct (K t ((n, ds) :: caps)) as [r'|] eqn:Ek; [|exact Hskip].
  intros H. injection H as <-. subst c.
  exists (Some ds), t, ((n, ds) :: caps). cbn [optional component].
  rewrite (number_of_digits ds Hne Hd), append_assoc, E. auto.
Qed.

Lemma opt_seconds_inv (s : string) (caps : captures)
    (K : string -> captures -> option captures) (r : captures) :
  rmatch (Opt seconds_group) s caps K = Some r ->
  exists sec s1 caps1,
    optional (fun sf => number (fst sf) && optional number (snd sf)) sec = true
    /\ s = seconds_text sec ++ s1
    /\ K s1 caps1 = Some r.
Proof.
  rewrite rmatch_Opt, seconds_stage'.
  destruct (span_digits s) as [ds rest] eqn:Es.
  destruct (span_digits_spec s ds rest Es) as [E [Hd _]].
  assert (Hskip : K s caps = Some r ->
                  exists sec s1 caps1,
                    optional (fun sf => number (fst sf) && optional number (snd sf))
                             sec = true
                    /\ s = seconds_text sec ++ s1
                    /\ K s1 caps1 = Some r).
  { intros H. exists None, s, caps. auto. }
  destruct (ds =? "") eqn:Hne; [exact Hskip|].
  destruct rest as [|c t]; [exact Hskip|].
  cbn [after_seconds].
  destruct (Ascii.eqb_spec "." c) as [Ec|_].
  - subst c. destruct (span_digits t) as [fs rest'] eqn:Et.
    destruct (span_digits_spec t fs rest' Et) as [E' [Hf _]].
    destruct (fs =? "") eqn:Hfne; [exact Hskip|].
    destruct rest' as [|c' t']; [exact Hskip|].
    destruct (Ascii.eqb_spec "S" c') as [Ec'|_]; [|exact Hskip].
    destruct (K t' ((4%nat, String "." fs) :: (3%nat, ds) :: caps)) as [r'|] eqn:Ek;
      [|exact Hskip].
    intros H. injection H as <-. subst c'.
    exists (Some (ds, Some fs)), t', ((4%nat, String "." fs) :: (3%nat, ds) :: caps).
    cbn [optional fst snd seconds_text].
    rewrite (number_of_digits ds Hne Hd), (number_of_digits fs Hfne Hf).
    rewrite E, E'. rewrite !append_assoc. cbn [append].
    auto.
  - destruct (Ascii.eqb_spec "S" c) as [Ec|_]; [|exact Hskip].
    destruct (K t ((3%nat, ds) :: caps)) as [r'|] eqn:Ek; [|exact Hskip].
    intros H. injection H as <-. subst c.
    exists (Some (ds, None)), t, ((3%nat, ds) :: caps).
    cbn [optional fst snd seconds_text].
    rewrite (number_of_digits ds Hne Hd), append_assoc, E. auto.
Qed.

Lemma match_whole_starts_PT (d : string) (caps : captures) :
  match_whole pattern d = Some caps -> exists s0, d = String "P" (String "T" s0).
Proof.
  unfold match_whole, pattern.
  destruct d as [|c1 d]; cbn [rmatch]; [discriminate|].
  destruct (Ascii.eqb_spec "P" c1) as [E1|_]; [|discriminate].
  destruct d as [|c2 s0]; [discriminate|].
  destruct (Ascii.eqb_spec "T" c2) as [E2|_]; [|discriminate].
  intros _. subst. eexists. reflexivity.
Qed.

(** A string that the pattern matches is a well-formed duration. *)
Lemma match_whole_well_formed (d : string) (caps : captures) :
  match_whole pattern d = Some caps ->
  exists h m sec, well_formed h m sec = true /\ d = duration_text h m sec.
Proof.
  intros H. destruct (match_whole_starts_PT d caps H) as [s0 E]. subst d.
  rewrite match_whole_pattern in H.
  apply (opt_unit_inv 1 "H" s0 [] _ caps eq_refl) in H.
  destruct H as [h [s1 [caps1 [Hh [E0 H]]]]].
  apply (opt_unit_inv 2 "M" s1 caps1 _ caps eq_refl) in H.
  destruct H as [m [s2 [caps2 [Hm [E1 H]]]]].
  apply opt_seconds_inv in H.
  destruct H as [sec [s3 [caps3 [Hs [E2 H]]]]].
  unfold at_end in H. destruct (String.eqb_spec s3 "") as [E3|_]; [|discriminate].
  exists h, m, sec. unfold well_formed, duration_text.
  rewrite Hh, Hm, Hs. split; [reflexivity|].
  subst. rewrite append_nil_r. reflexivity.
Qed.

(** *** Whole numbers in the arithmetic of binary64 *)

Lemma nearest_even_whole (x : Z) : nearest_even x 1 = x.
Proof.
  unfold nearest_even. rewrite Z.mod_1_r, Z.div_1_r. reflexivity.
Qed.

Lemma Qred_whole (z : Z) (p : positive) :
  Qred (z * Z.pos p # p) = inject_Z z.
Proof.
  transitivity (Qred (inject_Z z)).
  - apply Qred_complete. unfold Qeq, inject_Z. cbn [Qnum Qden]. lia.
  - apply Qcanon.Qred_identity. unfold inject_Z. cbn [Qnum Qden].
    apply Z.gcd_1_r.
Qed.

(** A whole number below [2 ^ 53] is a binary64 number. *)
Lemma round64_whole (z : Z) :
  (0 <= z < 2 ^ 53)%Z -> round64_Q (inject_Z z) = Finite (inject_Z z).
Proof.
  intros [Hz Hb]. unfold round64_Q, inject_Z. cbn [Qnum Qden].
  unfold round64. cbv zeta. rewrite Z2N.id by exact Hz.
  destruct (Z.eqb_spec z 0) as [->|Hne]; [reflexivity|].
  assert (Hpos : (0 < z)%Z) by lia.
  destruct (Z.log2_spec z Hpos) as [Hlo Hhi].
  pose proof (Z.log2_nonneg z) as Hl0.
  assert (Hl : (Z.log2 z < 53)%Z) by (apply Z.log2_lt_pow2; assumption).
  change (Z.log2 1) with 0%Z. rewrite Z.sub_0_r.
  rewrite (Z.max_l 0 (- Z.log2 z)), (Z.max_r 0 (Z.log2 z)) by lia.
  rewrite Z.pow_0_r, Z.mul_1_r, Z.mul_1_l.
  destruct (Z.ltb_spec z (2 ^ Z.log2 z)) as [Hc|_]; [lia|].
  rewrite (Z.max_l (Z.log2 z - 52) (-1074)) by lia.
  rewrite (Z.max_r 0 (- (Z.log2 z - 52))), (Z.max_l 0 (Z.log2 z - 52)) by lia.
  rewrite Z.pow_0_r, Z.mul_1_l, nearest_even_whole, Z.mul_1_r.
  set (k := (- (Z.log2 z - 52))%Z).
  assert (Hk : (0 <= k)%Z) by (unfold k; lia).
  assert (Hp : (0 < 2 ^ k)%Z) by (apply Z.pow_pos_nonneg; lia).
  assert (Hm : (z * 2 ^ k < 2 ^ 53)%Z).
  { replace 53%Z with (Z.succ (Z.log2 z) + k)%Z by (unfold k; lia).
    rewrite Z.pow_add_r by lia. apply Z.mul_lt_mono_pos_r; assumption. }
  destruct (Z.leb_spec (2 ^ 1024) (z * 2 ^ k)) as [Hc|_].
  { assert ((2 ^ 53 < 2 ^ 1024)%Z) by (apply Z.pow_lt_mono_r; lia). lia. }
  f_equal.
  replace (2 ^ k)%Z with (Z.pos (Z.to_pos (2 ^ k))) at 1
    by (apply Z2Pos.id; exact Hp).
  apply Qred_whole.
Qed.

Lemma decimal_from_nonneg (s : string) :
  forall acc, (0 <= acc)%Z -> (0 <= decimal_from acc s)%Z.
Proof.
  induction s as [|c s IH]; intros acc Hacc; cbn [decimal_from]; [exact Hacc|].
  apply IH. unfold digit_value. lia.
Qed.

Lemma count_nonneg (part : option string) : (0 <= count part)%Z.
Proof.
  destruct part as [ds|]; cbn [count]; [|lia].
  apply decimal_from_nonneg. lia.
Qed.

Lemma nearest_whole (part : option string) :
  (count part < 2 ^ 53)%Z -> nearest part = Finite (inject_Z (count part)).
Proof.
  intros H. pose proof (count_nonneg part) as H0.
  destruct part as [ds|]; cbn [nearest count] in *; [|reflexivity].
  apply round64_whole. lia.
Qed.

Lemma times_whole (z : Z) (k : positive) :
  (0 <= z)%Z -> (z * Z.pos k < 2 ^ 53)%Z ->
  times (Finite (inject_Z z)) k = Finite (inject_Z (z * Z.pos k)).
Proof.
  intros Hz Hb. cbn [times].
  change (inject_Z z * inject_Z (Z.pos k))%Q with (inject_Z (z * Z.pos k)).
  apply round64_whole. lia.
Qed.

Lemma plus_whole (a b : Z) :
  (0 <= a)%Z -> (0 <= b)%Z -> (a + b < 2 ^ 53)%Z ->
  plus (Finite (inject_Z a)) (Finite (inject_Z b)) = Finite (inject_Z (a + b)).
Proof.
  intros Ha Hb Hs. cbn [plus].
  replace (inject_Z a + inject_Z b)%Q with (inject_Z (a + b)).
  - apply round64_whole. lia.
  - unfold Qplus, inject_Z. cbn [Qnum Qden Pos.mul]. rewrite !Z.mul_1_r.
    reflexivity.
Qed.

(** Without a fraction and below [2 ^ 53], no operation of the sum
    rounds. *)
Lemma binary64_seconds_whole (h m : option string)
    (sec : option (string * option string)) :
  no_fraction sec = true ->
  (whole_seconds h m sec < 2 ^ 53)%Z ->
  binary64_seconds h m sec = Finite (inject_Z (whole_seconds h m sec)).
Proof.
  unfold whole_seconds, binary64_seconds. intros Hn Hb.
  pose proof (count_nonneg h) as Hh.
  pose proof (count_nonneg m) as Hm.
  pose proof (count_nonneg (option_map fst sec)) as Hs.
  rewrite !nearest_whole by lia.
  rewrite !times_whole by lia.
  rewrite !plus_whole by lia.
  replace (match sec with
           | Some (_, Some fs) => round64_Q (fraction fs)
           | _ => Finite 0
           end) with (Finite (inject_Z 0))
    by (destruct sec as [[ss [fs|]]|]; [discriminate Hn|reflexivity|reflexivity]).
  rewrite plus_whole by lia. rewrite Z.add_0_r. reflexivity.
Qed.

(** C6, as stated, fails: the sum of the claim is not what the arithmetic
    of the code gives.  The duration ["PT1.14S"] is well formed, and hours
    x 3600 + minutes x 60 + seconds + fractional is [1.14] for it;
    [iso8601ToSeconds] returns the number that an engine prints as
    [1.1400000000000001], which is neither [1.14] nor the binary64 number
    nearest to it: the fraction [.14] is rounded when it is read, and the
    sum with [1] is rounded again.  In the same way
    ["PT9007199254740993S"] gives [9007199254740992]. *)
Lemma iso8601ToSeconds_not_exact :
  well_formed None None (Some ("1", Some "14")) = true
  /\ duration_text None None (Some ("1", Some "14")) = "PT1.14S"
  /\ (exact_seconds None None (Some ("1", Some "14")) == 1.14)%Q
  /\ iso8601ToSeconds (Str "PT1.14S")
     = Return (Num (2567051787601183 # 2251799813685248))
  /\ ~ (2567051787601183 # 2251799813685248
        == exact_seconds None None (Some ("1", Some "14")))%Q
  /\ round64_Q (exact_seconds None None (Some ("1", Some "14")))
     = Finite (5134103575202365 # 4503599627370496)
  /\ ~ (2567051787601183 # 2251799813685248
        == 5134103575202365 # 4503599627370496)%Q
  /\ well_formed None None (Some ("9007199254740993", None)) = true
  /\ iso8601ToSeconds (Str "PT9007199254740993S")
     = Return (Num 9007199254740992)
  /\ ~ (9007199254740992
        == exact_seconds None None (Some ("9007199254740993", None)))%Q.
Proof.
  split; [reflexivity|].
  split; [reflexivity|].
  split; [vm_compute; reflexivity|].
  split; [vm_compute; reflexivity|].
  split; [vm_compute; discriminate|].
  split; [vm_compute; reflexivity|].
  split; [vm_compute; discriminate|].
  split; [reflexivity|].
  split; [vm_compute; reflexivity|].
  vm_compute; discriminate.
Qed.

(** C6, amended. For every well-formed duration [PT#H#M#S] (each of the
    three parts optional, the seconds with an optional fraction)
    [iso8601ToSeconds] returns hours x 3600 + minutes x 60 + seconds +
    fractional as the arithmetic of binary64 computes it: each part is the
    number nearest to what its digits write, and each product and each sum,
    taken from left to right, is rounded to the nearest number.  For a
    duration without a fraction whose parts add up to less than [2 ^ 53]
    that is the sum itself.  For every other string it returns the empty
    string.  ["PT1H2M3S"] gives [3723], ["PT0.5S"] gives [0.5], ["PT"]
    gives [0] and ["garbage"] gives the empty string. *)
Theorem iso8601ToSeconds_binary64 (d : string) :
  (forall h m sec,
      well_formed h m sec = true -> d = duration_text h m sec ->
      iso8601ToSeconds (Str d)
      = Return (number_value (binary64_seconds h m sec)))
  /\ (forall h m sec,
      well_formed h m sec = true -> d = duration_text h m sec ->
      no_fraction sec = true -> (whole_seconds h m sec < 2 ^ 53)%Z ->
      iso8601ToSeconds (Str d)
      = Return (Num (inject_Z (whole_seconds h m sec))))
  /\ ((forall h m sec, well_formed h m sec = true -> d <> duration_text h m sec) ->
      iso8601ToSeconds (Str d) = Return (Str ""))
  /\ iso8601ToSeconds (Str "PT1H2M3S") = Return (Num 3723)
  /\ iso8601ToSeconds (Str "PT0.5S") = Return (Num (1 # 2))
  /\ iso8601ToSeconds (Str "PT") = Return (Num 0)
  /\ iso8601ToSeconds (Str "garbage") = Return (Str "").
Proof.
  split; [|split; [|split]].
  - intros h m sec Hwf ->. cbn [iso8601ToSeconds].
    rewrite (iso8601ToSeconds_well_formed h m sec Hwf). reflexivity.
  - intros h m sec Hwf -> Hn Hb. cbn [iso8601ToSeconds].
    rewrite (iso8601ToSeconds_well_formed h m sec Hwf).
    rewrite (binary64_seconds_whole h m sec Hn Hb). reflexivity.
  - intros Hnot. cbn [iso8601ToSeconds]. unfold iso8601ToSeconds_string.
    destruct (match_whole pattern d) as [caps|] eqn:E; [|reflexivity].
    destruct (match_whole_well_formed d caps E) as [h [m [sec [Hwf Hd]]]].
    destruct (Hnot h m sec Hwf Hd).
  - repeat split; vm_compute; reflexivity.
Qed.

Lemma iso8601ToSeconds_binary64_witness :
  iso8601ToSeconds (Str "PT10H2M30.25S")
  = Return (number_value
              (binary64_seconds (Some "10") (Some "2") (Some ("30", Some "25"))))
  /\ iso8601ToSeconds (Str "PT10H2M30S") = Return (Num 36150)
  /\ iso8601ToSeconds (Str "1H2M") = Return (Str "").
Proof.
  split; [|split].
  - apply (proj1 (iso8601ToSeconds_binary64 "PT10H2M30.25S")
             (Some "10") (Some "2") (Some ("30", Some "25"))); reflexivity.
  - apply (proj1 (proj2 (iso8601ToSeconds_binary64 "PT10H2M30S"))
             (Some "10") (Some "2") (Some ("30", None))); reflexivity.
  - apply (proj1 (proj2 (proj2 (iso8601ToSeconds_binary64 "1H2M")))).
    intros h m sec _ E. discriminate E.
Defined.

(** * Further properties of the code *)

(** ** The record filter and the pagination engine *)

Lemma accept_non_null_record (s : value) :
  non_null s = true -> accept s = Return (accept_truthy s).
Proof.
  intros Hs. unfold accept, accept_truthy.
  rewrite (get_field _ _ Hs). cbn [bind].
  destruct (truthy (field s "actor")) eqn:Ha; cbn [negb andb]; [|reflexivity].
  rewrite (get_field _ _ (truthy_non_null _ Ha)). cbn [bind].
  destruct (truthy (field (field s "actor") "mbox")); cbn [negb andb];
    [|reflexivity].
  rewrite (get_field _ _ Hs). cbn [bind].
  destruct (truthy (field s "verb")) eqn:Hv; cbn [negb andb]; [|reflexivity].
  rewrite (get_field _ _ (truthy_non_null _ Hv)). reflexivity.
Qed.

Lemma accept_null_record (s : value) :
  non_null s = false -> exists e, accept s = Throw e /\ is_TypeError e = true.
Proof.
  destruct s; cbn; intros H; try discriminate; eexists; split; reflexivity.
Qed.

Lemma filterM_accept_non_null (l : list value) :
  forallb non_null l = true ->
  filterM accept l = Return (filter accept_truthy l).
Proof.
  induction l as [|x l IH]; intros H; [reflexivity|].
  cbn [forallb] in H. apply andb_true_iff in H. destruct H as [Hx Hl].
  cbn [filterM filter]. rewrite (accept_non_null_record x Hx), (IH Hl).
  cbn [bind]. reflexivity.
Qed.

Lemma filterM_accept_null (l : list value) :
  forallb non_null l = false ->
  exists e, filterM accept l = Throw e /\ is_TypeError e = true.
Proof.
  induction l as [|x l IH]; intros H; [discriminate|].
  cbn [forallb] in H. cbn [filterM].
  destruct (non_null x) eqn:Hx.
  - cbn [andb] in H. rewrite (accept_non_null_record x Hx). cbn [bind].
    destruct (IH H) as [e [-> He]]. cbn [bind]. exists e. auto.
  - destruct (accept_null_record x Hx) as [e [-> He]]. cbn [bind].
    exists e. auto.
Qed.

(** X1. On an array of statements none of which is [null], the filter of
    line 161 is the list filter by the truthiness test, so it keeps the
    order of the statements and raises no error; an array that holds a
    [null] makes it throw a [TypeError]. *)
Theorem filter_statements_is_filter (l : list value) :
  (forallb non_null l = true ->
   filter_statements (Arr l) = Return (filter accept_truthy l))
  /\ (forallb non_null l = false ->
      exists e, filter_statements (Arr l) = Throw e /\ is_TypeError e = true).
Proof.
  split; intros H; cbn [filter_statements].
  - exact (filterM_accept_non_null l H).
  - exact (filterM_accept_null l H).
Qed.

Lemma filter_statements_is_filter_witness :
  filter_statements (Arr [learner_record "1"; empty_mbox_record; learner_record "2"])
  = Return [learner_record "1"; learner_record "2"]
  /\ exists e, filter_statements (Arr [learner_record "1"; Null]) = Throw e
               /\ is_TypeError e = true.
Proof.
  split.
  - apply (proj1 (filter_statements_is_filter
                    [learner_record "1"; empty_mbox_record; learner_record "2"])).
    reflexivity.
  - apply (proj2 (filter_statements_is_filter [learner_record "1"; Null])).
    reflexivity.
Defined.

Lemma filterM_accept_kept (l : list value) :
  forall kept, filterM accept l = Return kept ->
  Forall (fun s => accept s = Return true) kept.
Proof.
  induction l as [|x l IH]; intros kept; cbn [filterM].
  - intros H. injection H as <-. constructor.
  - destruct (accept x) as [keep|e] eqn:Hx; cbn [bind]; [|discriminate].
    destruct (filterM accept l) as [ys|e] eqn:Hl; cbn [bind]; [|discriminate].
    intros H. injection H as <-.
    destruct keep; [constructor; [exact Hx|]|]; apply IH; reflexivity.
Qed.

Section Runs.
Variable JSON_parse : string -> option value.
Variable limit : Z.

Lemma accepted_records_kept (r : round) (page : list value) :
  accepted_records JSON_parse r = Some page ->
  Forall (fun s => accept s = Return true) page.
Proof.
  unfold accepted_records.
  destruct (JSON_parse (response (res r))) as [body|]; [|discriminate].
  destruct (get body "statements") as [statements|e]; cbn [bind]; [|discriminate].
  destruct statements; cbn [filter_statements]; try discriminate.
  destruct (filterM accept elements) as [kept|e] eqn:E; [|discriminate].
  intros H. injection H as <-. exact (filterM_accept_kept _ _ E).
Qed.

(** A resolved run has taken in the pages of the first rounds, one after
    the other. *)
Lemma fetch_pages (env : list round) :
  forall st acc,
    fetch JSON_parse limit env st = Resolved acc ->
    exists pages,
      (List.length pages <= List.length env)%nat
      /\ map (accepted_records JSON_parse) (firstn (List.length pages) env)
         = map Some pages
      /\ acc = (allStatements st ++ List.concat pages)%list.
Proof.
  induction env as [|r env IH]; intros st acc; cbn [fetch];
    destruct (finished limit st) eqn:Hf; intros H;
    try (injection H as <-; exists []; cbn; rewrite app_nil_r;
         repeat split; lia);
    try discriminate.
  destruct (on_response JSON_parse st r) as [st'|o] eqn:Hr.
  - destruct (on_response_Continue _ _ _ _ Hr) as [page [Hp [Ha _]]].
    destruct (IH st' acc H) as [pages [Hlen [Hmap Hacc]]].
    exists (page :: pages). cbn [List.length firstn map List.concat].
    rewrite Hp, Hmap, Hacc, Ha, <- app_assoc. repeat split. lia.
  - subst o. destruct (on_response_Resolved _ _ _ _ Hr) as [page [Hp Ha]].
    exists [page]. cbn [List.length firstn map List.concat].
    rewrite Hp, Ha, app_nil_r. repeat split. lia.
Qed.
End Runs.

(** X2. The accumulator that [fetchStatements] resolves with is the
    concatenation, in the order of the requests, of the filtered pages of
    the first rounds of the store: every page that was taken in went
    through the filter whole, and nothing else is in the result. *)
Theorem fetchStatements_concatenates_pages
    (JSON_parse : string -> option value) (limit : Z) (fetching : bool)
    (env : list round) (acc : list value) :
  fetchStatements JSON_parse limit fetching env = Resolved acc ->
  exists pages,
    (List.length pages <= List.length env)%nat
    /\ map (accepted_records JSON_parse) (firstn (List.length pages) env)
       = map Some pages
    /\ acc = List.concat pages.
Proof.
  intros H.
  destruct (fetch_pages JSON_parse limit env (new_session fetching) acc H)
    as [pages [Hlen [Hmap Hacc]]].
  exists pages. auto.
Qed.

Lemma fetchStatements_concatenates_pages_witness :
  exists pages,
    (List.length pages <= List.length two_page_store)%nat
    /\ map (accepted_records Reference.JSON_parse)
           (firstn (List.length pages) two_page_store)
       = map Some pages
    /\ three_records = List.concat pages.
Proof.
  apply (fetchStatements_concatenates_pages Reference.JSON_parse 10 true
           two_page_store three_records).
  vm_compute. reflexivity.
Defined.

(** X3. Every record that [fetchStatements] resolves with has passed the
    filter: it is not [null], and its actor, mailbox identifier, verb and
    display-label map are truthy. *)
Theorem fetchStatements_returns_accepted_records
    (JSON_parse : string -> option value) (limit : Z) (fetching : bool)
    (env : list round) (acc : list value) :
  fetchStatements JSON_parse limit fetching env = Resolved acc ->
  Forall (fun s => non_null s = true /\ accept_truthy s = true) acc.
Proof.
  intros H.
  destruct (fetch_pages JSON_parse limit env (new_session fetching) acc H)
    as [pages [_ [Hmap Hacc]]].
  cbn [new_session allStatements app] in Hacc. subst acc. clear H.
  revert Hmap. generalize (firstn (List.length pages) env) as rounds.
  induction pages as [|page pages IH]; intros rounds Hmap; [constructor|].
  destruct rounds as [|r rounds]; [discriminate|].
  cbn [map] in Hmap. injection Hmap as Hr Hrest.
  cbn [List.concat]. apply Forall_app. split; [|exact (IH rounds Hrest)].
  apply (Forall_impl _ (P := fun s => accept s = Return true)).
  - intros s Hs. destruct (non_null s) eqn:Hn.
    + rewrite (accept_non_null_record s Hn) in Hs. injection Hs as Hs. auto.
    + destruct (accept_null_record s Hn) as [e [He _]]. congruence.
  - exact (accepted_records_kept JSON_parse r page Hr).
Qed.

Lemma fetchStatements_returns_accepted_records_witness :
  Forall (fun s => non_null s = true /\ accept_truthy s = true) three_records.
Proof.
  apply (fetchStatements_returns_accepted_records Reference.JSON_parse 10 true
           two_page_store three_records).
  vm_compute. reflexivity.
Defined.

(** X4. A page request that is answered with a status other than 200, or
    with a body whose [statements] are missing (or otherwise falsy),
    rejects the whole run, whatever has been accumulated: no partial
    result is handed over. *)
Theorem failed_page_rejects_run
    (JSON_parse : string -> option value) (limit : Z) (st : session)
    (r : round) (env : list round) :
  finished limit st = false ->
  (status (res r) <> 200%Z ->
   fetch JSON_parse limit (r :: env) st = Rejected "Error fetching statements.")
  /\ (forall body,
        status (res r) = 200%Z ->
        JSON_parse (response (res r)) = Some body ->
        non_null body = true ->
        truthy (field body "statements") = false ->
        fetch JSON_parse limit (r :: env) st = Rejected "No statements found.").
Proof.
  intros Hf. split.
  - intros Hs. cbn [fetch]. rewrite Hf. unfold on_response.
    apply Z.eqb_neq in Hs. rewrite Hs. reflexivity.
  - intros body Hs Hb Hn Ht. cbn [fetch]. rewrite Hf. unfold on_response.
    rewrite Hs, Hb, (get_field _ _ Hn). cbn [Z.eqb Pos.eqb negb bind].
    rewrite Ht. reflexivity.
Qed.

Lemma failed_page_rejects_run_witness :
  let st := {| allStatements := two_records; more := Str "/more/1";
               fetchedCount := 2; isFetching := true |} in
  fetch Reference.JSON_parse 10
    [ {| res := {| status := 204; response := "" |}; stop_clicked := false |} ] st
  = Rejected "Error fetching statements."
  /\ fetch Reference.JSON_parse 10
       [ {| res := {| status := 200; response := "{}" |}; stop_clicked := false |} ] st
     = Rejected "No statements found.".
Proof.
  intros st. split.
  - apply (proj1 (failed_page_rejects_run Reference.JSON_parse 10 st
                    {| res := {| status := 204; response := "" |};
                       stop_clicked := false |} [] eq_refl)).
    discriminate.
  - apply (proj2 (failed_page_rejects_run Reference.JSON_parse 10 st
                    {| res := {| status := 200; response := "{}" |};
                       stop_clicked := false |} [] eq_refl) (Obj []));
      reflexivity.
Defined.

(** X5. A page whose body does not decode, or whose array of statements
    holds a [null], makes the callback of the request throw: the promise of
    the run is neither resolved nor rejected. *)
Theorem broken_page_leaves_run_unsettled
    (JSON_parse : string -> option value) (limit : Z) (st : session)
    (r : round) (env : list round) :
  finished limit st = false ->
  status (res r) = 200%Z ->
  (JSON_parse (response (res r)) = None ->
   exists e, fetch JSON_parse limit (r :: env) st = Uncaught e
             /\ is_SyntaxError e = true)
  /\ (forall body l,
        JSON_parse (response (res r)) = Some body ->
        non_null body = true ->
        field body "statements" = Arr l ->
        forallb non_null l = false ->
        exists e, fetch JSON_parse limit (r :: env) st = Uncaught e
                  /\ is_TypeError e = true).
Proof.
  intros Hf Hs. split.
  - intros Hb. cbn [fetch]. rewrite Hf. unfold on_response.
    rewrite Hs, Hb. cbn [Z.eqb Pos.eqb negb]. eexists. split; reflexivity.
  - intros body l Hb Hn Hl Hnull. cbn [fetch]. rewrite Hf. unfold on_response.
    rewrite Hs, Hb, (get_field _ _ Hn), Hl. cbn [Z.eqb Pos.eqb negb bind truthy].
    cbn [filter_statements].
    destruct (filterM_accept_null l Hnull) as [e [-> He]]. cbn [bind].
    exists e. auto.
Qed.

Lemma broken_page_leaves_run_unsettled_witness :
  let undecodable := {| res := {| status := 200; response := "<html>" |};
                        stop_clicked := false |} in
  let poisoned := {| res := page_answer [learner_record "1"; Null] "";
                     stop_clicked := false |} in
  (exists e,
      fetch Reference.JSON_parse 10 [undecodable] (new_session true) = Uncaught e
      /\ is_SyntaxError e = true)
  /\ (exists e,
        fetch Reference.JSON_parse 10 [poisoned] (new_session true) = Uncaught e
        /\ is_TypeError e = true).
Proof.
  intros undecodable poisoned. split.
  - apply (proj1 (broken_page_leaves_run_unsettled Reference.JSON_parse 10
                    (new_session true) undecodable [] eq_refl eq_refl)).
    reflexivity.
  - apply (proj2 (broken_page_leaves_run_unsettled Reference.JSON_parse 10
                    (new_session true) poisoned [] eq_refl eq_refl)
             (Obj [("statements", Arr [learner_record "1"; Null]);
                   ("more", Str "")])
             [learner_record "1"; Null]).
    + vm_compute. reflexivity.
    + reflexivity.
    + reflexivity.
    + reflexivity.
Defined.

(** X6. A page without a continuation token (a [more] that is missing,
    [null] or empty) is the last one: the run resolves with the
    accumulator and the records of that page that pass the filter, though
    the target count is not reached.  An empty array of statements is a
    page like any other, not an error. *)
Theorem last_page_resolves_run
    (JSON_parse : string -> option value) (limit : Z) (st : session)
    (r : round) (env : list round) (body : value) (l : list value) :
  finished limit st = false ->
  status (res r) = 200%Z ->
  JSON_parse (response (res r)) = Some body ->
  non_null body = true ->
  field body "statements" = Arr l ->
  forallb non_null l = true ->
  truthy (field body "more") = false ->
  fetch JSON_parse limit (r :: env) st
  = Resolved (allStatements st ++ filter accept_truthy l)%list.
Proof.
  intros Hf Hs Hb Hn Hl Hnn Hm. cbn [fetch]. rewrite Hf. unfold on_response.
  rewrite Hs, Hb, !(get_field _ _ Hn), Hl.
  cbn [Z.eqb Pos.eqb negb bind truthy filter_statements].
  rewrite (filterM_accept_non_null l Hnn). cbn [bind]. rewrite Hm.
  reflexivity.
Qed.

Lemma last_page_resolves_run_witness :
  fetch Reference.JSON_parse 10
    [ {| res := {| status := 200;
                   response := Reference.JSON_stringify None
                                 (Obj [("statements", Arr [])]) |};
         stop_clicked := false |} ]
    {| allStatements := two_records; more := Str "/more/1";
       fetchedCount := 2; isFetching := true |}
  = Resolved (two_records ++ filter accept_truthy [])%list.
Proof.
  apply (last_page_resolves_run Reference.JSON_parse 10
           {| allStatements := two_records; more := Str "/more/1";
              fetchedCount := 2; isFetching := true |}
           {| res := {| status := 200;
                        response := Reference.JSON_stringify None
                                      (Obj [("statements", Arr [])]) |};
              stop_clicked := false |} []
           (Obj [("statements", Arr [])]) []); reflexivity.
Defined.

Section IdleRuns.
Variable JSON_parse : string -> option value.
Variable limit : Z.

Lemma idle_round_continues (st : session) (r : round) :
  idle JSON_parse r = true -> isFetching st = true ->
  on_response JSON_parse st r
  = Continue {| allStatements := allStatements st;
                more := continuation JSON_parse r;
                fetchedCount := fetchedCount st; isFetching := true |}.
Proof.
  unfold idle, continuation, on_response. intros H Hflag.
  apply andb_true_iff in H. destruct H as [H Hbody].
  apply andb_true_iff in H. destruct H as [Hs Hstop].
  rewrite Hs, Hflag. cbn [negb]. apply negb_true_iff in Hstop. rewrite Hstop.
  destruct (JSON_parse (response (res r))) as [body|]; [|discriminate].
  apply andb_true_iff in Hbody. destruct Hbody as [Hbody Hm].
  apply andb_true_iff in Hbody. destruct Hbody as [Ht Hfilter].
  assert (Hn : non_null body = true).
  { destruct body; try reflexivity; discriminate Ht. }
  rewrite !(get_field _ _ Hn). cbn [bind]. rewrite Ht. cbn [negb].
  destruct (filter_statements (field body "statements")) as [[|x page]|e];
    try discriminate.
  cbn [bind]. rewrite Hm.
  assert (Hne : match field body "more" with Str "" => true | _ => false end = false).
  { destruct (field body "more") as [| | | | |t| |]; try reflexivity.
    destruct t; [discriminate Hm|reflexivity]. }
  rewrite Hne. cbn [negb andb List.length]. rewrite app_nil_r, Nat.add_0_r.
  reflexivity.
Qed.

Lemma idle_rounds_pending (env : list round) :
  forallb (idle JSON_parse) env = true ->
  forall st, finished limit st = false ->
  fetch JSON_parse limit env st = Pending
  /\ List.length (requests JSON_parse limit env st) = S (List.length env).
Proof.
  induction env as [|r env IH]; intros Hidle st Hf; cbn [fetch requests];
    rewrite Hf; [split; reflexivity|].
  cbn [forallb] in Hidle. apply andb_true_iff in Hidle. destruct Hidle as [Hr He].
  assert (Hflag : isFetching st = true).
  { unfold finished in Hf. apply orb_false_iff in Hf. destruct Hf as [Hf _].
    apply negb_false_iff in Hf. exact Hf. }
  rewrite (idle_round_continues st r Hr Hflag).
  match goal with
  | |- fetch _ _ _ ?st' = _ /\ _ =>
      assert (Hf' : finished limit st' = false)
        by (unfold finished in *; cbn [isFetching fetchedCount];
            rewrite Hflag in Hf; exact Hf);
      destruct (IH He st' Hf') as [IH1 IH2]
  end.
  split; [exact IH1|]. cbn [List.length]. rewrite IH2. reflexivity.
Qed.
End IdleRuns.

(** X7. The engine has no stop of its own for pages that add nothing: as
    long as the store answers with pages none of whose records passes the
    filter and with a continuation token, and the stop button is left
    alone, every answer is followed by a further request, and the run is
    not settled. *)
Theorem idle_store_keeps_run_pending
    (JSON_parse : string -> option value) (limit : Z) (env : list round) :
  forallb (idle JSON_parse) env = true ->
  (0 < limit)%Z ->
  fetchStatements JSON_parse limit true env = Pending
  /\ List.length (requests JSON_parse limit env (new_session true))
     = S (List.length env).
Proof.
  intros Hidle Hlimit.
  apply (idle_rounds_pending JSON_parse limit env Hidle (new_session true)).
  unfold finished. cbn. apply Z.leb_gt. exact Hlimit.
Qed.

Lemma idle_store_keeps_run_pending_witness :
  fetchStatements Reference.JSON_parse 5 true idle_store = Pending
  /\ List.length (requests Reference.JSON_parse 5 idle_store (new_session true))
     = 4%nat.
Proof.
  apply (idle_store_keeps_run_pending Reference.JSON_parse 5 idle_store).
  - vm_compute. reflexivity.
  - reflexivity.
Defined.

Section RequestCounts.
Variable JSON_parse : string -> option value.
Variable limit : Z.

Lemma productive_requests (env : list round) :
  forallb (productive JSON_parse) env = true ->
  forall st,
    (Z.of_nat (List.length (requests JSON_parse limit env st))
     <= Z.max 0 (limit - Z.of_nat (fetchedCount st)))%Z.
Proof.
  induction env as [|r env IH]; intros Hp st; cbn [requests];
    destruct (finished limit st) eqn:Hf; cbn [List.length]; try lia.
  - unfold finished in Hf. apply orb_false_iff in Hf. destruct Hf as [_ Hf].
    apply Z.leb_gt in Hf. lia.
  - cbn [forallb] in Hp. apply andb_true_iff in Hp. destruct Hp as [Hr He].
    unfold finished in Hf. apply orb_false_iff in Hf. destruct Hf as [_ Hf].
    apply Z.leb_gt in Hf.
    destruct (on_response JSON_parse st r) as [st'|o] eqn:Hstep;
      cbn [List.length]; [|lia].
    destruct (on_response_Continue _ _ _ _ Hstep) as [page [Hpage [_ Hn]]].
    specialize (IH He st'). rewrite Hn in IH.
    unfold productive in Hr. rewrite Hpage in Hr.
    destruct page as [|x page]; [discriminate|].
    cbn [List.length] in IH. lia.
Qed.

Lemma on_response_Continue_more (st st' : session) (r : round) :
  on_response JSON_parse st r = Continue st' ->
  more st' = continuation JSON_parse r /\ truthy (more st') = true.
Proof.
  unfold on_response, continuation.
  destruct (negb (status (res r) =? 200)%Z); [discriminate|].
  destruct (JSON_parse (response (res r))) as [body|]; [|discriminate].
  destruct (non_null body) eqn:Hn.
  - rewrite !(get_field _ _ Hn). cbn [bind].
    destruct (truthy (field body "statements")); cbn [negb]; [|discriminate].
    destruct (filter_statements (field body "statements")) as [page|e];
      cbn [bind]; [|discriminate].
    destruct (truthy (field body "more")) eqn:Hm; cbn [andb]; [|discriminate].
    match goal with |- (if ?c then _ else _) = _ -> _ => destruct c end;
      [|discriminate].
    intros H. injection H as <-. cbn [more]. auto.
  - destruct body; try discriminate Hn; cbn; discriminate.
Qed.

Lemma requests_tokens (env : list round) :
  forall st,
    exists k,
      map more (requests JSON_parse limit env st)
      = firstn k (more st :: map (continuation JSON_parse) env)
      /\ Forall (fun st' => truthy (more st') = true)
                (tl (requests JSON_parse limit env st)).
Proof.
  induction env as [|r env IH]; intros st; cbn [requests];
    destruct (finished limit st).
  - exists 0%nat. split; [reflexivity|constructor].
  - exists 1%nat. split; [reflexivity|constructor].
  - exists 0%nat. split; [reflexivity|constructor].
  - destruct (on_response JSON_parse st r) as [st'|o] eqn:Hstep.
    + destruct (on_response_Continue_more _ _ _ Hstep) as [Hm Ht].
      destruct (IH st') as [k [Hk Hall]].
      exists (S k). cbn [map firstn tl]. rewrite Hk, Hm. split; [reflexivity|].
      destruct (requests JSON_parse limit env st') as [|st0 more_requests] eqn:E.
      * constructor.
      * cbn [tl] in Hall. constructor; [|exact Hall].
        assert (E0 : st0 = st').
        { destruct env; cbn [requests] in E;
            destruct (finished limit st'); try discriminate;
            injection E as E _; symmetry; exact E. }
        rewrite E0. exact Ht.
    + exists 1%nat. split; [reflexivity|constructor].
Qed.
End RequestCounts.

(** X8. When every page of the store has at least one record that passes
    the filter, a run makes at most [query.limit] page requests (and none
    for a target count that is not positive). *)
Theorem productive_store_bounds_requests
    (JSON_parse : string -> option value) (limit : Z) (fetching : bool)
    (env : list round) :
  forallb (productive JSON_parse) env = true ->
  (Z.of_nat (List.length (requests JSON_parse limit env (new_session fetching)))
   <= Z.max 0 limit)%Z.
Proof.
  intros Hp.
  pose proof (productive_requests JSON_parse limit env Hp (new_session fetching))
    as H.
  cbn [new_session fetchedCount] in H. rewrite Z.sub_0_r in H. exact H.
Qed.

(** X9. The first page request of a run carries no continuation token
    ([null]); every later request carries the token of the answer just
    before it, which is truthy: the tokens are used in the order in which
    the store gave them, each for one request. *)
Theorem requests_carry_preceding_token
    (JSON_parse : string -> option value) (limit : Z) (fetching : bool)
    (env : list round) :
  exists k,
    map more (requests JSON_parse limit env (new_session fetching))
    = firstn k (Null :: map (continuation JSON_parse) env)
    /\ Forall (fun st => truthy (more st) = true)
              (tl (requests JSON_parse limit env (new_session fetching))).
Proof.
  exact (requests_tokens JSON_parse limit env (new_session fetching)).
Qed.

Lemma productive_store_bounds_requests_witness :
  (Z.of_nat (List.length (requests Reference.JSON_parse 1 two_page_store
                            (new_session true)))
   <= Z.max 0 1)%Z.
Proof.
  apply (productive_store_bounds_requests Reference.JSON_parse 1 true
           two_page_store).
  vm_compute. reflexivity.
Defined.

(** ** Response patterns *)

Lemma starts_with_drop (p : string) :
  forall s, starts_with p s = true -> s = p ++ drop (String.length p) s.
Proof.
  induction p as [|a p IH]; intros s; [reflexivity|].
  destruct s as [|b s]; cbn [starts_with]; [discriminate|].
  intros H. apply andb_true_iff in H. destruct H as [Hab Hp].
  apply Ascii.eqb_eq in Hab. subst b.
  cbn [String.length drop append]. rewrite <- (IH s Hp). reflexivity.
Qed.

Lemma split_from_not_nil (sep s : string) :
  forall skip, split_from sep skip s <> [].
Proof.
  induction s as [|c s IH]; intros skip; cbn [split_from]; [discriminate|].
  destruct skip as [|n]; [|apply IH].
  destruct (starts_with sep (String c s)); [discriminate|].
  destruct (split_from sep 0 s); discriminate.
Qed.

Lemma join_cons_char (sep : string) (c : ascii) (piece : string)
    (pieces : list string) :
  join sep (String c piece :: pieces) = String c (join sep (piece :: pieces)).
Proof. destruct pieces; reflexivity. Qed.

Lemma drop_nil (n : nat) : drop n "" = "".
Proof. destruct n; reflexivity. Qed.

(** [s.split(sep).join(sep)] is [s]; with [skip] characters of a separator
    still to pass over, the pieces make up what follows them. *)
Lemma join_split_from (a : ascii) (sep' : string) (s : string) :
  forall skip,
    join (String a sep') (split_from (String a sep') skip s) = drop skip s.
Proof.
  induction s as [|c s IH]; intros skip.
  - cbn [split_from join]. symmetry. apply drop_nil.
  - destruct skip as [|n]; [|cbn [split_from drop]; apply IH].
    cbn [split_from drop].
    destruct (starts_with (String a sep') (String c s)) eqn:Hs.
    + pose proof (split_from_not_nil (String a sep') s
                    (String.length (String a sep') - 1)) as Hne.
      pose proof (IH (String.length (String a sep') - 1)%nat) as Hj.
      destruct (split_from (String a sep') (String.length (String a sep') - 1) s)
        as [|x l]; [contradiction|].
      change (join (String a sep') ("" :: x :: l))
        with (String a sep' ++ join (String a sep') (x :: l)).
      rewrite Hj. cbn [String.length Nat.sub]. rewrite Nat.sub_0_r.
      cbn [starts_with] in Hs. apply andb_true_iff in Hs. destruct Hs as [Hac Hs].
      apply Ascii.eqb_eq in Hac. subst c.
      cbn [append]. rewrite <- (starts_with_drop sep' s Hs). reflexivity.
    + pose proof (split_from_not_nil (String a sep') s 0) as Hne.
      pose proof (IH 0%nat) as Hj.
      destruct (split_from (String a sep') 0 s) as [|x l]; [contradiction|].
      rewrite join_cons_char, Hj. reflexivity.
Qed.

(** X10. [processStringToArray] never returns an empty array (an empty
    pattern gives the array of the empty id), and no character of the
    pattern is lost in the split: the ids of the array, joined by [[,]],
    are the pattern without the white space around it and without the
    bracket and the quote at each end. *)
Theorem processStringToArray_keeps_pattern (inputString : string) :
  (exists first others,
      processStringToArray (Str inputString) = Return (first :: others))
  /\ join "[,]" (processStringToArray_string inputString)
     = strip_ends dquote dquote (strip_ends "[" "]" (trim inputString)).
Proof.
  split.
  - cbn [processStringToArray]. unfold processStringToArray_string, split.
    pose proof (split_from_not_nil "[,]"
                  (strip_ends dquote dquote (strip_ends "[" "]" (trim inputString)))
                  0) as Hne.
    destruct (split_from "[,]" 0
                (strip_ends dquote dquote (strip_ends "[" "]" (trim inputString))))
      as [|first others]; [contradiction|].
    exists first, others. reflexivity.
  - unfold processStringToArray_string, split.
    exact (join_split_from "[" ",]" _ 0).
Qed.

(** ** Anonymisation *)

Lemma mem_char_replicate (n : nat) : mem_char "@" (replicate n "*") = false.
Proof. induction n as [|n IH]; [reflexivity|]. cbn. exact IH. Qed.

Lemma length_replicate (n : nat) : String.length (replicate n "*") = n.
Proof. induction n as [|n IH]; [reflexivity|]. cbn. rewrite IH. reflexivity. Qed.

Lemma split_at_first (local rest : string) :
  mem_char "@" local = false ->
  split "@" (local ++ "@" ++ rest) = local :: split "@" rest.
Proof.
  unfold split. intros Hl.
  induction local as [|c l IH].
  - cbn. reflexivity.
  - cbn [mem_char] in Hl. apply orb_false_iff in Hl. destruct Hl as [Hc Hl].
    change (String c l ++ "@" ++ rest) with (String c (l ++ "@" ++ rest)).
    cbn [split_from starts_with]. rewrite Hc, (IH Hl). reflexivity.
Qed.

Lemma mask_of_parts (c : ascii) (rest domain : string) (others : list string)
    (email : string) :
  split "@" email = String c rest :: domain :: others ->
  obfuscateEmail email
  = Return (String c (replicate (String.length rest) "*") ++ "@" ++ domain).
Proof.
  intros Hs. unfold obfuscateEmail. rewrite Hs.
  cbn [nth nth_error charAt0]. unfold repeat_str.
  replace (Z.of_nat (String.length (String c rest)) - 1)%Z
    with (Z.of_nat (String.length rest)) by (cbn [String.length]; lia).
  destruct (Z.ltb_spec (Z.of_nat (String.length rest)) 0) as [H|_]; [lia|].
  rewrite Nat2Z.id. reflexivity.
Qed.

(** X11. [obfuscateEmail] throws exactly on the addresses with an empty
    local part: the empty string and the strings that start with ['@'];
    on every other string it returns. *)
Theorem obfuscateEmail_throws_iff (email : string) :
  throws (obfuscateEmail email) = true
  <-> (email = "" \/ exists rest, email = String "@" rest).
Proof.
  split.
  - destruct email as [|c rest]; [auto|].
    destruct (Ascii.eqb_spec "@" c) as [E|Hne].
    + subst c. intros _. right. exists rest. reflexivity.
    + intros H. exfalso. revert H.
      unfold obfuscateEmail, split. cbn [split_from starts_with].
      apply Ascii.eqb_neq in Hne. rewrite Hne. cbn [andb].
      destruct (split_from "@" 0 rest) as [|piece pieces];
        cbn [nth String.length]; unfold repeat_str;
        match goal with
        | |- context [(?z <? 0)%Z] =>
            destruct (Z.ltb_spec z 0) as [Hlt|_]; [lia|]
        end; cbn [bind throws]; discriminate.
  - intros H. destruct (obfuscateEmail_empty_local_part email H) as [e [-> _]].
    reflexivity.
Qed.

(** X12. The domain of the result is what stands between the first and
    the second ['@'] of the address: an address without ['@'] is given the
    domain [undefined], and what follows a second ['@'] is dropped. *)
Theorem obfuscateEmail_domain_segment (c : ascii) (rest : string) :
  mem_char "@" (String c rest) = false ->
  obfuscateEmail (String c rest)
  = Return (String c (replicate (String.length rest) "*") ++ "@undefined")
  /\ (forall domain tail,
        mem_char "@" domain = false ->
        obfuscateEmail (String c rest ++ "@" ++ domain ++ "@" ++ tail)
        = Return (String c (replicate (String.length rest) "*") ++ "@" ++ domain)).
Proof.
  intros Hl. split.
  - unfold obfuscateEmail. rewrite (split_char_absent "@" _ Hl).
    cbn [nth nth_error charAt0]. unfold repeat_str.
    replace (Z.of_nat (String.length (String c rest)) - 1)%Z
      with (Z.of_nat (String.length rest)) by (cbn [String.length]; lia).
    destruct (Z.ltb_spec (Z.of_nat (String.length rest)) 0) as [H|_]; [lia|].
    rewrite Nat2Z.id. reflexivity.
  - intros domain tail Hd.
    apply (mask_of_parts c rest domain (split "@" tail)).
    rewrite (split_at_first _ _ Hl), (split_at_first _ _ Hd). reflexivity.
Qed.

Lemma obfuscateEmail_domain_segment_witness :
  obfuscateEmail "alice" = Return "a****@undefined"
  /\ (forall domain tail,
        mem_char "@" domain = false ->
        obfuscateEmail ("alice" ++ "@" ++ domain ++ "@" ++ tail)
        = Return ("a****" ++ "@" ++ domain)).
Proof.
  apply (obfuscateEmail_domain_segment "a" "lice"). reflexivity.
Defined.

(** X13. On an address [local@domain] (a non-empty local part, one ['@'])
    anonymisation keeps the length of the address, and anonymising the
    result again changes nothing. *)
Theorem obfuscateEmail_idempotent (c : ascii) (rest domain : string) :
  mem_char "@" (String c rest) = false ->
  mem_char "@" domain = false ->
  exists masked,
    obfuscateEmail (String c rest ++ "@" ++ domain) = Return masked
    /\ String.length masked = String.length (String c rest ++ "@" ++ domain)
    /\ obfuscateEmail masked = Return masked.
Proof.
  intros Hl Hd.
  assert (Hc : Ascii.eqb "@" c = false).
  { cbn [mem_char] in Hl. apply orb_false_iff in Hl. tauto. }
  assert (Hstars : mem_char "@" (String c (replicate (String.length rest) "*"))
                   = false).
  { cbn [mem_char]. rewrite Hc, mem_char_replicate. reflexivity. }
  exists (String c (replicate (String.length rest) "*") ++ "@" ++ domain).
  split; [|split].
  - apply (mask_of_parts c rest domain []).
    exact (split_at_once _ _ Hl Hd).
  - rewrite !length_append. cbn [String.length]. rewrite length_replicate.
    reflexivity.
  - rewrite (mask_of_parts c (replicate (String.length rest) "*") domain []
               _ (split_at_once _ _ Hstars Hd)).
    rewrite length_replicate. reflexivity.
Qed.

Lemma obfuscateEmail_idempotent_witness :
  exists masked,
    obfuscateEmail "alice@example.com" = Return masked
    /\ String.length masked = String.length "alice@example.com"
    /\ obfuscateEmail masked = Return masked.
Proof.
  apply (obfuscateEmail_idempotent "a" "lice" "example.com"); reflexivity.
Defined.

(** ** The tabular row and the encoders *)

Lemma first_value_truthy (v : value) :
  truthy v = true -> exists x, first_value v = Return x.
Proof.
  destruct v as [| | | | |t|l|ps]; cbn [truthy first_value]; try discriminate;
    intros _; try (eexists; reflexivity).
  - destruct t; eexists; reflexivity.
  - destruct l; eexists; reflexivity.
  - destruct ps as [|[k x] ps]; eexists; reflexivity.
Qed.

Section RowErrors.
Variable JSON_parse : string -> option value.
Variable JSON_stringify : option nat -> value -> string.
Variable Number_toString : Q -> string.

Ltac step_bind :=
  match goal with
  | |- context [bind ?m _] =>
      let E := fresh "E" in destruct m eqn:E; cbn [bind]
  end.

Lemma extract_needs_object (obf : bool) (s : value) :
  non_null (field s "object") = false ->
  throws (extract JSON_parse Number_toString obf s) = true.
Proof.
  intros Ho. unfold extract.
  destruct (non_null s) eqn:Hs.
  - rewrite !(get_field s _ Hs). cbn [bind].
    destruct (field s "object"); try discriminate Ho;
      repeat (step_bind; [try discriminate|reflexivity]).
  - destruct s; try discriminate Hs; reflexivity.
Qed.

Lemma question_fields_without_result (s : value) :
  non_null s = true -> truthy (field s "result") = false ->
  question_fields JSON_parse Number_toString s
  = Return {| q_answers := ""; q_passed := ""; q_correct := "";
              q_users := ""; q_i := 1 |}.
Proof.
  intros Hs Hr. unfold question_fields.
  rewrite (get_field s _ Hs). cbn [bind]. rewrite Hr. reflexivity.
Qed.

Lemma duration_field_without_result (s : value) :
  non_null s = true -> truthy (field s "result") = false ->
  duration_field s = Str "0".
Proof.
  intros Hs Hr. unfold duration_field.
  rewrite (get_field s _ Hs). cbn [bind]. rewrite Hr. reflexivity.
Qed.

Lemma mapM_throws {A B : Type} (f : A -> completion B) (l : list A) :
  throws (mapM f l) = existsb (fun x => throws (f x)) l.
Proof.
  induction l as [|x l IH]; [reflexivity|].
  cbn [mapM existsb]. destruct (f x) as [y|e]; cbn [bind throws orb];
    [|reflexivity].
  rewrite <- IH. destruct (mapM f l); reflexivity.
Qed.
End RowErrors.

(** X14. The row computation reads [s.object.definition] without a test:
    a statement without an object (or with a [null] one) makes it throw,
    with or without anonymisation, although the record filter does not look
    at the object and lets such a statement pass. *)
Theorem extract_throws_without_object
    (JSON_parse : string -> option value) (Number_toString : Q -> string)
    (s : value) :
  non_null s = true ->
  accept_truthy s = true ->
  non_null (field s "object") = false ->
  accept s = Return true
  /\ forall obf, throws (extract JSON_parse Number_toString obf s) = true.
Proof.
  intros Hs Ha Ho. split.
  - rewrite (accept_non_null_record s Hs), Ha. reflexivity.
  - intros obf. exact (extract_needs_object JSON_parse Number_toString obf s Ho).
Qed.

Lemma extract_throws_without_object_witness :
  accept objectless_record = Return true
  /\ forall obf,
       throws (extract Reference.JSON_parse Reference.Number_toString obf
                 objectless_record) = true.
Proof.
  apply (extract_throws_without_object Reference.JSON_parse
           Reference.Number_toString objectless_record); reflexivity.
Defined.

(** X15. For a statement that passed the filter, whose mailbox identifier
    is a string, which has an object and no result, the row computation
    (anonymisation off) returns a row: the identifier, the object
    identifier and the timestamp are those of the statement, the actor is
    the mailbox identifier without its first [mailto:], the duration is
    the string [0] and the four question fields are empty. *)
Theorem extract_without_result
    (JSON_parse : string -> option value) (Number_toString : Q -> string)
    (s : value) (mbox : string) :
  non_null s = true ->
  accept_truthy s = true ->
  field (field s "actor") "mbox" = Str mbox ->
  non_null (field s "object") = true ->
  truthy (field s "result") = false ->
  exists row,
    extract JSON_parse Number_toString false s = Return row
    /\ id row = field s "id"
    /\ actor row = replace_first "mailto:" "" mbox
    /\ objectId row = field (field s "object") "id"
    /\ timestamp row = field s "timestamp"
    /\ duration row = Str "0"
    /\ questionAnswers row = "" /\ questionPassed row = ""
    /\ questionCorrectAnswers row = "" /\ usersAnswer row = "".
Proof.
  intros Hs Ha Hm Ho Hr.
  unfold accept_truthy in Ha.
  apply andb_true_iff in Ha. destruct Ha as [Ha Hd].
  apply andb_true_iff in Ha. destruct Ha as [Ha Hv].
  apply andb_true_iff in Ha. destruct Ha as [Hactor Hmbox].
  unfold extract.
  rewrite !(get_field s _ Hs). cbn [bind].
  rewrite (get_field _ _ (truthy_non_null _ Hactor)). cbn [bind].
  rewrite Hmbox, Hm. cbn [strip_mailto bind].
  rewrite (get_field _ _ (truthy_non_null _ Hv)). cbn [bind]. rewrite Hd.
  destruct (first_value_truthy _ Hd) as [label ->]. cbn [bind].
  rewrite !(get_field _ _ Ho). cbn [bind].
  assert (Hname : exists name,
             (if truthy (field (field s "object") "definition")
              then get (field (field s "object") "definition") "name"
              else Return (field (field s "object") "definition")) = Return name
             /\ exists label', (if truthy name then first_value name
                                else Return (Str "")) = Return label').
  { destruct (truthy (field (field s "object") "definition")) eqn:Hdef.
    - rewrite (get_field _ _ (truthy_non_null _ Hdef)).
      eexists. split; [reflexivity|].
      destruct (truthy (field (field (field s "object") "definition") "name"))
        eqn:Hn; [apply first_value_truthy; exact Hn|eexists; reflexivity].
    - eexists. split; [reflexivity|]. rewrite Hdef. eexists; reflexivity. }
  destruct Hname as [name [Ename [label' Elabel]]].
  rewrite Ename. cbn [bind]. rewrite Elabel. cbn [bind].
  rewrite (question_fields_without_result JSON_parse Number_toString s Hs Hr).
  cbn [bind]. rewrite (duration_field_without_result s Hs Hr).
  eexists. split; [reflexivity|]. cbn. repeat split; reflexivity.
Qed.

Lemma extract_without_result_witness :
  exists row,
    extract Reference.JSON_parse Reference.Number_toString false
      (learner_record "1") = Return row
    /\ id row = Str "1"
    /\ actor row = "alice@example.com"
    /\ objectId row = Str "http://example.com/q1"
    /\ timestamp row = Str "2024-07-15T10:00:00Z"
    /\ duration row = Str "0"
    /\ questionAnswers row = "" /\ questionPassed row = ""
    /\ questionCorrectAnswers row = "" /\ usersAnswer row = "".
Proof.
  apply (extract_without_result Reference.JSON_parse Reference.Number_toString
           (learner_record "1") "mailto:alice@example.com"); reflexivity.
Defined.



(** X17. The CSV encoding is all or nothing: it throws exactly when the
    row computation throws for one of the statements, and then gives no
    payload for the others either.  The line-delimited and the raw encoding
    never throw, and every format other than [csv], [jsonl] and [raw] is
    refused with the error [Invalid format selected.], whatever the
    statements. *)
Theorem processStatements_throws
    (JSON_parse : string -> option value)
    (JSON_stringify : option nat -> value -> string)
    (Number_toString : Q -> string) (statements : list value)
    (format : string) (obf : bool) :
  throws (processStatements JSON_parse JSON_stringify Number_toString
            statements "csv" obf)
  = existsb (fun s => throws (extract JSON_parse Number_toString obf s)) statements
  /\ throws (processStatements JSON_parse JSON_stringify Number_toString
               statements "jsonl" obf) = false
  /\ throws (processStatements JSON_parse JSON_stringify Number_toString
               statements "raw" obf) = false
  /\ (format <> "csv" -> format <> "jsonl" -> format <> "raw" ->
      processStatements JSON_parse JSON_stringify Number_toString
        statements format obf
      = Throw (Error "Invalid format selected.")).
Proof.
  split; [|split; [reflexivity|split; [reflexivity|]]].
  - unfold processStatements. cbn [String.eqb Ascii.eqb Bool.eqb].
    pose proof (mapM_throws (csv_row JSON_parse Number_toString obf) statements)
      as H.
    destruct (mapM (csv_row JSON_parse Number_toString obf) statements) as [rows|e];
      cbn [bind throws] in *; rewrite H; clear H;
      induction statements as [|s l IH]; cbn [existsb]; try reflexivity;
      rewrite IH; unfold csv_row;
      destruct (extract JSON_parse Number_toString obf s); reflexivity.
  - intros H1 H2 H3. unfold processStatements.
    destruct (String.eqb_spec format "csv"); [contradiction|].
    destruct (String.eqb_spec format "jsonl"); [contradiction|].
    destruct (String.eqb_spec format "raw"); [contradiction|].
    reflexivity.
Qed.

Lemma processStatements_throws_witness :
  processStatements Reference.JSON_parse Reference.JSON_stringify
    Reference.Number_toString two_records "CSV" false
  = Throw (Error "Invalid format selected.").
Proof.
  apply (proj2 (proj2 (proj2 (processStatements_throws Reference.JSON_parse
           Reference.JSON_stringify Reference.Number_toString two_records
           "CSV" false)))); discriminate.
Defined.

(** X18. [extractName] returns the [name] of the decoded object when it is
    truthy, before it looks at the account; what it returns is never a
    falsy value other than [null] (an empty name is passed over); a text
    that does not decode makes it throw the [SyntaxError] of [JSON.parse]. *)
Theorem extractName_result
    (JSON_parse : string -> option value) (Number_toString : Q -> string)
    (jsonString : value) :
  (JSON_parse (ToString Number_toString jsonString) = None ->
   exists e, extractName JSON_parse Number_toString jsonString = Throw e
             /\ is_SyntaxError e = true)
  /\ (forall data,
        JSON_parse (ToString Number_toString jsonString) = Some data ->
        truthy (field data "name") = true ->
        extractName JSON_parse Number_toString jsonString
        = Return (field data "name"))
  /\ (forall v,
        extractName JSON_parse Number_toString jsonString = Return v ->
        v = Null \/ truthy v = true).
Proof.
  unfold extractName, parse. split; [|split].
  - intros ->. cbn [bind]. eexists. split; reflexivity.
  - intros data -> Ht. cbn [bind].
    assert (Hn : non_null data = true).
    { destruct data; try reflexivity; discriminate Ht. }
    rewrite (get_field _ _ Hn). cbn [bind]. rewrite Ht. reflexivity.
  - intros v.
    destruct (JSON_parse (ToString Number_toString jsonString)) as [data|];
      cbn [bind]; [|discriminate].
    destruct (get data "name") as [name|e]; cbn [bind]; [|discriminate].
    destruct (truthy name) eqn:Hname.
    + intros H. injection H as <-. auto.
    + destruct (get data "account") as [account|e]; cbn [bind]; [|discriminate].
      destruct (truthy account); cbn [negb].
      * destruct (get account "name") as [account_name|e]; cbn [bind];
          [|discriminate].
        destruct (truthy account_name) eqn:Ha; intros H; injection H as <-; auto.
      * intros H. injection H as <-. auto.
Qed.

Lemma extractName_result_witness :
  (exists e,
      extractName Reference.JSON_parse Reference.Number_toString (Str "Alice")
      = Throw e /\ is_SyntaxError e = true)
  /\ extractName Reference.JSON_parse Reference.Number_toString
       (Str (Reference.JSON_stringify None
               (Obj [("name", Str "Alice");
                     ("account", Obj [("name", Str "alice01")])])))
     = Return (Str "Alice").
Proof.
  split.
  - apply (proj1 (extractName_result Reference.JSON_parse
                    Reference.Number_toString (Str "Alice"))).
    reflexivity.
  - apply (proj1 (proj2 (extractName_result Reference.JSON_parse
                           Reference.Number_toString _))
             (Obj [("name", Str "Alice");
                   ("account", Obj [("name", Str "alice01")])]));
      reflexivity.
Defined.

(** ** The name of the file *)

Lemma padStart2_nat_text (n : nat) :
  (n < 100)%nat -> padStart2 (nat_text n) = two_digits n.
Proof.
  intros H.
  do 100 (destruct n as [|n]; [reflexivity|]).
  lia.
Qed.

(** X19. For the values that a [Date] gives (a month index below 12, a day
    of at most 31, an hour below 24, minutes and seconds below 60),
    [getCurrentTimestamp] is the year, the two digits of the month counted
    from 1 (the month index plus one), the two digits of the day, an
    underscore, and the two digits each of the hour, the minutes and the
    seconds: every field but the year is padded with a zero to two
    digits. *)
Theorem getCurrentTimestamp_shape (now : clock) :
  (monthIndex now < 12)%nat -> (dayOfMonth now <= 31)%nat ->
  (hourOfDay now < 24)%nat -> (minuteOfHour now < 60)%nat ->
  (secondOfMinute now < 60)%nat ->
  getCurrentTimestamp now
  = nat_text (fullYear now)
    ++ two_digits (monthIndex now + 1) ++ two_digits (dayOfMonth now)
    ++ "_"
    ++ two_digits (hourOfDay now) ++ two_digits (minuteOfHour now)
    ++ two_digits (secondOfMinute now).
Proof.
  intros Hmo Hd Hh Hmi Hs. unfold getCurrentTimestamp. cbv zeta.
  rewrite (padStart2_nat_text (monthIndex now + 1)) by lia.
  rewrite (padStart2_nat_text (dayOfMonth now)) by lia.
  rewrite (padStart2_nat_text (hourOfDay now)) by lia.
  rewrite (padStart2_nat_text (minuteOfHour now)) by lia.
  rewrite (padStart2_nat_text (secondOfMinute now)) by lia.
  reflexivity.
Qed.

Lemma getCurrentTimestamp_shape_witness :
  getCurrentTimestamp {| fullYear := 2024; monthIndex := 6; dayOfMonth := 5;
                         hourOfDay := 9; minuteOfHour := 3;
                         secondOfMinute := 0 |}
  = "2024" ++ "07" ++ "05" ++ "_" ++ "09" ++ "03" ++ "00".
Proof.
  apply (getCurrentTimestamp_shape
           {| fullYear := 2024; monthIndex := 6; dayOfMonth := 5;
              hourOfDay := 9; minuteOfHour := 3; secondOfMinute := 0 |});
    cbn; lia.
Defined.

(** ** The submission of the form *)

(** X20. A submission that reaches its end reports success exactly when a
    file was handed to the browser: there is no success without a download
    and no download with an error alert. *)
Theorem submit_success_iff_download
    (JSON_parse : string -> option value)
    (JSON_stringify : option nat -> value -> string)
    (Number_toString : Q -> string)
    (dates : completion (string * string)) (limit : Z) (format : string)
    (obf : bool) (p : probe) (fetching : bool) (env : list round)
    (rep : report) :
  submit JSON_parse JSON_stringify Number_toString dates limit format obf p
         fetching env = Some rep ->
  (alert_type rep = "success" /\ downloaded rep <> None)
  \/ (alert_type rep = "danger" /\ downloaded rep = None).
Proof.
  unfold submit. destruct dates as [d|e]; [|discriminate].
  destruct (testConnection p) as [[]|reason|].
  - destruct (fetchStatements JSON_parse (capped limit) fetching env)
      as [statements|reason|e|]; try discriminate.
    + destruct (processStatements JSON_parse JSON_stringify Number_toString
                  statements format obf) as [file|e];
        intros H; injection H as <-; cbn; [left|right]; split;
        try reflexivity; discriminate.
    + intros H. injection H as <-. right. split; reflexivity.
  - intros H. injection H as <-. right. split; reflexivity.
  - discriminate.
Qed.

Lemma submit_success_iff_download_witness :
  let rep :=
    {| downloaded :=
         Some {| data := Reference.JSON_stringify (Some 2%nat) (Arr three_records);
                 mimeType := "application/json"; extension := "json" |};
       alert_message := "Data successfully fetched and downloaded.";
       alert_type := "success" |} in
  (alert_type rep = "success" /\ downloaded rep <> None)
  \/ (alert_type rep = "danger" /\ downloaded rep = None).
Proof.
  intros rep.
  apply (submit_success_iff_download Reference.JSON_parse
           Reference.JSON_stringify Reference.Number_toString
           (Return ("2024-07-01T00:00:00", "2024-07-15T00:00:00")) 10 "raw" false
           (Answer 200) true two_page_store rep).
  vm_compute. reflexivity.
Defined.

(** X21. When the stop button is clicked while the connection is tested,
    or the target count is not positive, no page is requested and the
    submission still ends in success: the CSV file that is handed over
    holds the header and no row. *)
Theorem submit_without_fetching
    (JSON_parse : string -> option value)
    (JSON_stringify : option nat -> value -> string)
    (Number_toString : Q -> string)
    (dates : string * string) (limit : Z) (obf : bool) (fetching : bool)
    (env : list round) :
  fetching = false \/ (limit <= 0)%Z ->
  requests JSON_parse (capped limit) env (new_session fetching) = []
  /\ submit JSON_parse JSON_stringify Number_toString (Return dates) limit "csv"
            obf (Answer 200) fetching env
     = Some {| downloaded :=
                 Some {| data := header; mimeType := "text/csv";
                         extension := "csv" |};
               alert_message := "Data successfully fetched and downloaded.";
               alert_type := "success" |}.
Proof.
  intros H.
  assert (Hf : finished (capped limit) (new_session fetching) = true).
  { unfold finished. cbn [new_session isFetching fetchedCount].
    destruct H as [->|Hl]; [reflexivity|].
    apply orb_true_iff. right. apply Z.leb_le. unfold capped.
    destruct (limit >? 1000)%Z eqn:E; [apply Z.gtb_lt in E|]; cbn; lia. }
  split.
  - destruct env; cbn [requests]; rewrite Hf; reflexivity.
  - unfold submit, fetchStatements. cbn [testConnection Z.eqb Pos.eqb negb].
    destruct env; cbn [fetch]; rewrite Hf; reflexivity.
Qed.

Lemma submit_without_fetching_witness :
  requests Reference.JSON_parse (capped 50) two_page_store (new_session false) = []
  /\ submit Reference.JSON_parse Reference.JSON_stringify
            Reference.Number_toString
            (Return ("2024-07-01T00:00:00", "2024-07-15T00:00:00")) 50 "csv"
            true (Answer 200) false two_page_store
     = Some {| downloaded :=
                 Some {| data := header; mimeType := "text/csv";
                         extension := "csv" |};
               alert_message := "Data successfully fetched and downloaded.";
               alert_type := "success" |}.
Proof.
  apply (submit_without_fetching Reference.JSON_parse Reference.JSON_stringify
           Reference.Number_toString).
  left. reflexivity.
Defined.

Lemma capped_le (limit : Z) : (capped limit <= 1000)%Z.
Proof.
  unfold capped. destruct (limit >? 1000)%Z eqn:E; [lia|].
  rewrite Z.gtb_ltb in E. apply Z.ltb_ge in E. exact E.
Qed.

(** X22. Whatever number the form holds, a submission requests a page only
    while fewer than 1000 statements are accumulated; and when every page
    of the store has a record that passes the filter, it makes at most
    1000 page requests. *)
Theorem submit_requests_capped
    (JSON_parse : string -> option value) (limit : Z) (fetching : bool)
    (env : list round) :
  Forall (fun st => (Z.of_nat (List.length (allStatements st)) < 1000)%Z)
         (requests JSON_parse (capped limit) env (new_session fetching))
  /\ (forallb (productive JSON_parse) env = true ->
      (List.length (requests JSON_parse (capped limit) env (new_session fetching))
       <= 1000)%nat).
Proof.
  pose proof (capped_le limit) as Hcap. split.
  - apply (Forall_impl _
             (P := fun st => (Z.of_nat (List.length (allStatements st))
                              < capped limit)%Z)).
    + intros st H. lia.
    + apply requests_below_limit. reflexivity.
  - intros Hp.
    pose proof (productive_requests JSON_parse (capped limit) env Hp
                  (new_session fetching)) as H.
    cbn [new_session fetchedCount] in H. lia.
Qed.

Lemma submit_requests_capped_witness :
  (List.length (requests Reference.JSON_parse (capped 5000) two_page_store
                  (new_session true)) <= 1000)%nat.
Proof.
  apply (proj2 (submit_requests_capped Reference.JSON_parse 5000 true
                  two_page_store)).
  vm_compute. reflexivity.
Defined.



(** ** More on the rows *)

(** X24. When the question block runs to its end, [questionAnswers] holds
    one [id= <i>: <id> Answer=<description>|] entry for every choice, in the
    order of the choices and numbered from 1 (unlike the two response
    strings, it is not emptied inside the loop). *)
Theorem questionAnswers_lists_every_choice
    (JSON_parse : string -> option value) (Number_toString : Q -> string)
    (s result res : value) (choices : list value)
    (correctPattern responses : string) :
  question_data JSON_parse Number_toString s result res choices
                correctPattern responses ->
  (exists q, question_fields JSON_parse Number_toString s = Return q
             /\ q_answers q = answers Number_toString 1 choices)
  /\ (forall obf row,
        extract JSON_parse Number_toString obf s = Return row ->
        questionAnswers row = answers Number_toString 1 choices).
Proof.
  intros Hd.
  pose proof (question_fields_run _ _ _ _ _ _ _ _ Hd) as Hrun.
  split.
  - eexists. split; [exact Hrun|reflexivity].
  - intros obf row Hrow.
    destruct (extract_Return _ _ _ _ _ Hrow) as [q [Hq [Ha _]]].
    rewrite Hrun in Hq. injection Hq as <-. exact Ha.
Qed.

Lemma questionAnswers_lists_every_choice_witness :
  (exists q, question_fields Reference.JSON_parse Reference.Number_toString
               two_choice_record = Return q
             /\ q_answers q = "id= 1: a Answer=Alpha|id= 2: b Answer=Beta|")
  /\ (forall obf row,
        extract Reference.JSON_parse Reference.Number_toString obf
          two_choice_record = Return row ->
        questionAnswers row = "id= 1: a Answer=Alpha|id= 2: b Answer=Beta|").
Proof.
  exact (questionAnswers_lists_every_choice Reference.JSON_parse
           Reference.Number_toString two_choice_record
           (field two_choice_record "result") (Obj [("success", Bool true)])
           [choice "a" "Alpha"; choice "b" "Beta"] "[a[,]b]" "[b]"
           two_choice_data).
Defined.

Lemma count_char_append (c : ascii) (a b : string) :
  count_char c (a ++ b) = (count_char c a + count_char c b)%nat.
Proof.
  induction a as [|d a IH]; [reflexivity|].
  cbn [append count_char]. rewrite IH. lia.
Qed.

(** X25. The fields of a row are joined by commas as they are, without
    quoting: the text of a row has ten commas more than its eleven fields
    have between them, so that a comma inside a field shifts the columns
    that follow it. *)
Theorem row_text_commas (Number_toString : Q -> string) (r : TabularRow) :
  let text := ToString Number_toString in
  count_char "," (row_text Number_toString r)
  = (10 + (count_char "," (text (id r)) + count_char "," (actor r)
           + count_char "," (text (verb r)) + count_char "," (text (objectId r))
           + count_char "," (text (objectName r))
           + count_char "," (text (duration r))
           + count_char "," (questionAnswers r)
           + count_char "," (questionPassed r)
           + count_char "," (questionCorrectAnswers r)
           + count_char "," (usersAnswer r)
           + count_char "," (text (timestamp r))))%nat.
Proof.
  intros text. unfold row_text. rewrite !count_char_append.
  change (count_char "," ",") with 1%nat. subst text. lia.
Qed.

Section AnonymisedRows.
Variable JSON_parse : string -> option value.
Variable Number_toString : Q -> string.

(** The row of a statement without result, for an actor that the code
    computes as [shown]. *)
Lemma extract_plain (obf : bool) (s : value) (mbox shown : string) :
  non_null s = true ->
  accept_truthy s = true ->
  field (field s "actor") "mbox" = Str mbox ->
  non_null (field s "object") = true ->
  truthy (field s "result") = false ->
  (if obf then obfuscateEmail (replace_first "mailto:" "" mbox)
   else Return (replace_first "mailto:" "" mbox)) = Return shown ->
  exists row,
    extract JSON_parse Number_toString obf s = Return row
    /\ actor row = shown /\ duration row = Str "0"
    /\ questionAnswers row = "" /\ questionPassed row = ""
    /\ questionCorrectAnswers row = "" /\ usersAnswer row = "".
Proof.
  intros Hs Ha Hm Ho Hr Hshown.
  unfold accept_truthy in Ha.
  apply andb_true_iff in Ha. destruct Ha as [Ha Hd].
  apply andb_true_iff in Ha. destruct Ha as [Ha Hv].
  apply andb_true_iff in Ha. destruct Ha as [Hactor Hmbox].
  unfold extract.
  rewrite !(get_field s _ Hs). cbn [bind].
  rewrite (get_field _ _ (truthy_non_null _ Hactor)). cbn [bind].
  rewrite Hmbox, Hm. cbn [strip_mailto bind]. rewrite Hshown. cbn [bind].
  rewrite (get_field _ _ (truthy_non_null _ Hv)). cbn [bind]. rewrite Hd.
  destruct (first_value_truthy _ Hd) as [label ->]. cbn [bind].
  rewrite !(get_field _ _ Ho). cbn [bind].
  assert (Hname : exists name,
             (if truthy (field (field s "object") "definition")
              then get (field (field s "object") "definition") "name"
              else Return (field (field s "object") "definition")) = Return name
             /\ exists label', (if truthy name then first_value name
                                else Return (Str "")) = Return label').
  { destruct (truthy (field (field s "object") "definition")) eqn:Hdef.
    - rewrite (get_field _ _ (truthy_non_null _ Hdef)).
      eexists. split; [reflexivity|].
      destruct (truthy (field (field (field s "object") "definition") "name"))
        eqn:Hn; [apply first_value_truthy; exact Hn|eexists; reflexivity].
    - eexists. split; [reflexivity|]. rewrite Hdef. eexists; reflexivity. }
  destruct Hname as [name [Ename [label' Elabel]]].
  rewrite Ename. cbn [bind]. rewrite Elabel. cbn [bind].
  rewrite (question_fields_without_result JSON_parse Number_toString s Hs Hr).
  cbn [bind]. rewrite (duration_field_without_result s Hs Hr).
  eexists. split; [reflexivity|]. cbn. repeat split; reflexivity.
Qed.
End AnonymisedRows.

(** X26. With anonymisation on, the row of a statement (one that passed
    the filter, with an object and no result) whose mailbox identifier is
    [mailto:local@domain] shows the masked address as its actor: the first
    character of the local part, a ['*'] for each of the others, and the
    domain; the [mailto:] prefix is gone. *)
Theorem extract_masks_actor
    (JSON_parse : string -> option value) (Number_toString : Q -> string)
    (s : value) (c : ascii) (rest domain : string) :
  non_null s = true ->
  accept_truthy s = true ->
  field (field s "actor") "mbox"
  = Str ("mailto:" ++ String c rest ++ "@" ++ domain) ->
  mem_char "@" (String c rest) = false ->
  mem_char "@" domain = false ->
  non_null (field s "object") = true ->
  truthy (field s "result") = false ->
  exists row,
    extract JSON_parse Number_toString true s = Return row
    /\ actor row = String c (replicate (String.length rest) "*") ++ "@" ++ domain.
Proof.
  intros Hs Ha Hm Hl Hd Ho Hr.
  destruct (extract_plain JSON_parse Number_toString true s
              ("mailto:" ++ String c rest ++ "@" ++ domain)
              (String c (replicate (String.length rest) "*") ++ "@" ++ domain)
              Hs Ha Hm Ho Hr) as [row [Hrow [Hactor _]]].
  - change (replace_first "mailto:" "" ("mailto:" ++ String c rest ++ "@" ++ domain))
      with (String c rest ++ "@" ++ domain).
    apply (mask_of_parts c rest domain []).
    exact (split_at_once _ _ Hl Hd).
  - exists row. auto.
Qed.

Lemma extract_masks_actor_witness :
  exists row,
    extract Reference.JSON_parse Reference.Number_toString true
      (learner_record "1") = Return row
    /\ actor row = "a****@example.com".
Proof.
  apply (extract_masks_actor Reference.JSON_parse Reference.Number_toString
           (learner_record "1") "a" "lice" "example.com"); reflexivity.
Defined.

(** ** More on durations *)






